(** * A browser chess server: the game-session protocol of [main.py]

    The server keeps a dictionary of game sessions.  Every session owns a
    board object of the rules library and two lists of captured-piece
    symbols.  The HTTP handlers ([new_game], [make_move], [get_valid_moves],
    [undo_move], [get_game_state_route]) are embedded as functions that take
    the session dictionary and the request and return the response together
    with the dictionary after the call.

    The rules of chess are not part of the program: it calls a rules library
    (python-chess) and an engine process.  The handlers are therefore stated
    over an interface [Rules] holding exactly the library calls the program
    makes, and the engine's answer is an argument of [make_move].  The module
    [Chess] further down implements that interface with the rules of chess,
    so that the handlers can be run on real games. *)

From Stdlib Require Import ZArith List Bool Lia.
From Stdlib Require Import Ascii String.
From stdpp Require Import base decidable option list strings gmap.

Local Open Scope string_scope.
Local Open Scope list_scope.
Local Open Scope Z_scope.

(** ** Squares, pieces and moves, as the program handles them *)

(** [chess.square(file_index, rank_index)]: squares are integers, a1 = 0,
    b1 = 1, ..., h8 = 63. *)
Definition chess_square (file_index rank_index : Z) : Z :=
  rank_index * 8 + file_index.

(** [chess.square_file(square)] is [square & 7]. *)
Definition square_file (square : Z) : Z := Z.land square 7.

(** [chess.square_rank(square)] is [square >> 3]. *)
Definition square_rank (square : Z) : Z := Z.shiftr square 3.

(** The library looks a square up in tables of 64 entries
    ([BB_SQUARES[square]]).  Python counts a negative index from the end of
    a list, so the lookup raises [IndexError] exactly for an index outside
    -64..63. *)
Definition square_in_table (square : Z) : bool :=
  (-64 <=? square) && (square <? 64).

Inductive PieceType := PAWN | KNIGHT | BISHOP | ROOK | QUEEN | KING.

(** [chess.WHITE] is [True], [chess.BLACK] is [False]. *)
Definition WHITE : bool := true.
Definition BLACK : bool := false.

Record Piece := { piece_type : PieceType; color : bool }.

Record Move := {
  from_square : Z;
  to_square : Z;
  promotion : option PieceType
}.

#[global] Instance PieceType_eq_dec : EqDecision PieceType.
Proof. solve_decision. Defined.

#[global] Instance Piece_eq_dec : EqDecision Piece.
Proof. solve_decision. Defined.

#[global] Instance Move_eq_dec : EqDecision Move.
Proof. solve_decision. Defined.

(** [chess.piece_symbol]: the lower-case letter of a piece type. *)
Definition piece_symbol (pt : PieceType) : string :=
  match pt with
  | PAWN => "p" | KNIGHT => "n" | BISHOP => "b"
  | ROOK => "r" | QUEEN => "q" | KING => "k"
  end.

Definition piece_symbol_upper (pt : PieceType) : string :=
  match pt with
  | PAWN => "P" | KNIGHT => "N" | BISHOP => "B"
  | ROOK => "R" | QUEEN => "Q" | KING => "K"
  end.

(** [Piece.symbol()]: upper case for white, lower case for black. *)
Definition symbol (p : Piece) : string :=
  if color p then piece_symbol_upper (piece_type p)
  else piece_symbol (piece_type p).

(** ** The board object

    A [chess.Board] is the current position together with two stacks of equal
    length: [move_stack], the moves played, and the positions they were
    played in, which [pop] restores.  The two stacks are kept here as one
    list of pairs, most recent first. *)
Record Board (P : Type) := {
  state : P;
  stack : list (Move * P)
}.
Arguments state {P} _.
Arguments stack {P} _.

(** [board.move_stack], oldest move first. *)
Definition move_stack {P} (b : Board P) : list Move :=
  rev (map fst (stack b)).

(** [board.pop()]: restores the position the last move was played in and
    returns the move; Python raises [IndexError] on an empty stack, which is
    [None] here. *)
Definition pop {P} (b : Board P) : option (Move * Board P) :=
  match stack b with
  | [] => None
  | (m, p) :: rest => Some (m, {| state := p; stack := rest |})
  end.

(** [board.peek()]: the last move of the stack. *)
Definition peek {P} (b : Board P) : option Move :=
  match stack b with
  | [] => None
  | (m, _) :: _ => Some m
  end.

(** ** The rules library, as far as the program calls it

    Every field is a call the program makes on a board.  The fields are
    total functions; where a call of the library raises an exception, the
    handler that makes the call says so ([legality_test] in [make_move]). *)
Class Rules := {
  position : Type;
  (** the position of [chess.Board()] *)
  starting_position : position;
  piece_at : position -> Z -> option Piece;
  turn : position -> bool;
  (** [board.legal_moves], as the list the generator yields *)
  legal_moves : position -> list Move;
  is_capture : position -> Move -> bool;
  (** what [board.push(move)] does to the position *)
  apply_move : position -> Move -> position;
  is_check : position -> bool;
  is_checkmate : position -> bool;
  is_stalemate : position -> bool;
  is_insufficient_material : position -> bool;
  is_seventyfive_moves : position -> bool;
  is_fivefold_repetition : Board position -> bool;
  is_game_over : Board position -> bool;
  result : Board position -> string;
  san : position -> Move -> string
}.

(** ** The server of [main.py] *)

(** The body of a move request: [{from_row, from_col, to_row, to_col}]. *)
Record MoveRequest := {
  from_row : Z;
  from_col : Z;
  to_row : Z;
  to_col : Z
}.

(** [game_session['captured_pieces']]: two lists of piece symbols; [append]
    adds at the end and [pop] removes the last element. *)
Record CapturedPieces := {
  white : list string;
  black : list string
}.

(** The value of [get_last_move]: [{'from': [row, col], 'to': [row, col]}]. *)
Record LastMove := {
  lm_from : Z * Z;
  lm_to : Z * Z
}.

(** The dictionary built by [game_state_to_dict]. *)
Record GameState := {
  gs_board : list (list (option string));
  gs_current_player : string;
  gs_game_over : bool;
  gs_winner : option string;
  gs_move_history : list string;
  gs_captured_pieces : CapturedPieces;
  gs_last_move : option LastMove;
  gs_is_check : bool
}.

(** The JSON bodies the routes return: the four bodies with
    [success: True], the soft failure [{success: False, error}], and the
    answer of the framework to an exception raised in a handler. *)
Inductive Response :=
| NewGameResponse (game_id : string) (game_state : option GameState)
| MoveResponse (game_state : option GameState) (ai_moved : bool)
| ValidMovesResponse (valid_moves : list (Z * Z))
| GameStateResponse (game_state : option GameState)
| ErrorResponse (error : string)
| InternalError.

Definition is_success (r : Response) : bool :=
  match r with
  | ErrorResponse _ | InternalError => false
  | _ => true
  end.

(** The answer to an accepted move with [ai_moved: True]. *)
Definition ai_replied (r : Response) : bool :=
  match r with
  | MoveResponse _ true => true
  | _ => false
  end.

(** [l.pop()]: removes the last element; Python raises [IndexError] on an
    empty list, which is [None] here. *)
Definition list_pop (l : list string) : option (list string) :=
  match l with
  | [] => None
  | _ => Some (removelast l)
  end.

(** [if l: l.pop()], the guarded removal of [undo_move]. *)
Definition pop_if_nonempty (l : list string) : option (list string) :=
  match l with
  | [] => Some l
  | _ => list_pop l
  end.

(** [range(8)] *)
Definition range8 : list Z := [0; 1; 2; 3; 4; 5; 6; 7].

Section Server.
Context {R : Rules}.

(** [chess.Board()] *)
Definition new_board : Board position :=
  {| state := starting_position; stack := [] |}.

(** [board.push(move)].  The library stores a castling move in the form the
    generator yields it, the king going two squares; the moves pushed here
    are moves of the generated list and are stored as they are. *)
Definition push (b : Board position) (m : Move) : Board position :=
  {| state := apply_move (state b) m; stack := (m, state b) :: stack b |}.

Record GameSession := {
  board : Board position;
  captured_pieces : CapturedPieces
}.

(** [board_to_2d_array] *)
Definition board_to_2d_array (b : Board position)
  : list (list (option string)) :=
  map (fun row =>
         map (fun col =>
                match piece_at (state b) (chess_square col (7 - row)) with
                | Some piece => Some (symbol piece)
                | None => None
                end) range8) range8.

(** [get_winner] *)
Definition get_winner (b : Board position) : option string :=
  if is_checkmate (state b) then
    let r := result b in
    if decide (r = "1-0") then Some "white"
    else if decide (r = "0-1") then Some "black"
    else None
  else if is_stalemate (state b) || is_insufficient_material (state b)
          || is_seventyfive_moves (state b) || is_fivefold_repetition b
  then Some "draw"
  else None.

(** [get_last_move] *)
Definition get_last_move (b : Board position) : option LastMove :=
  match peek b with
  | None => None
  | Some last_move =>
      Some {| lm_from := (7 - square_rank (from_square last_move),
                          square_file (from_square last_move));
              lm_to := (7 - square_rank (to_square last_move),
                        square_file (to_square last_move)) |}
  end.

(** The loop of [game_state_to_dict] that replays the move stack on a
    temporary board to render every move in algebraic notation. *)
Fixpoint replay_san (temp_board : Board position) (moves : list Move)
  : list string :=
  match moves with
  | [] => []
  | move :: rest =>
      san (state temp_board) move :: replay_san (push temp_board move) rest
  end.

(** [game_state_to_dict] *)
Definition game_state_to_dict (games : gmap string GameSession)
    (game_id : string) : option GameState :=
  match games !! game_id with
  | None => None
  | Some game_session =>
      let b := board game_session in
      Some {| gs_board := board_to_2d_array b;
              gs_current_player :=
                if turn (state b) then "white" else "black";
              gs_game_over := is_game_over b;
              gs_winner := get_winner b;
              gs_move_history := replay_san new_board (move_stack b);
              gs_captured_pieces := captured_pieces game_session;
              gs_last_move := get_last_move b;
              gs_is_check := is_check (state b) |}
  end.

(** The test [if not game_id or game_id not in games] of every route but
    [new_game], on the identifier held by the cookie session. *)
Definition active_game (games : gmap string GameSession)
    (cookie : option string) : option (string * GameSession) :=
  match cookie with
  | None => None
  | Some game_id =>
      if decide (game_id = "") then None
      else match games !! game_id with
           | None => None
           | Some game_session => Some (game_id, game_session)
           end
  end.

(** [new_game]; [game_id] is the fresh [uuid4] string.  Returns the
    dictionary, the identifier stored in the cookie session and the
    response. *)
Definition new_game (games : gmap string GameSession) (game_id : string)
  : gmap string GameSession * option string * Response :=
  let games' :=
    <[game_id := {| board := new_board;
                    captured_pieces := {| white := []; black := [] |} |}]>
      games in
  (games', Some game_id,
   NewGameResponse game_id (game_state_to_dict games' game_id)).

(** The candidate move of [make_move]: the squares of the request and the
    promotion to a queen for a pawn that goes to rank 0 or rank 7. *)
Definition candidate_move (b : Board position) (data : MoveRequest) : Move :=
  let from_sq := chess_square (from_col data) (7 - from_row data) in
  let to_sq := chess_square (to_col data) (7 - to_row data) in
  let is_pawn :=
    match piece_at (state b) from_sq with
    | Some piece => bool_decide (piece_type piece = PAWN)
    | None => false
    end in
  if is_pawn && ((square_rank to_sq =? 0) || (square_rank to_sq =? 7))
  then {| from_square := from_sq; to_square := to_sq;
          promotion := Some QUEEN |}
  else {| from_square := from_sq; to_square := to_sq; promotion := None |}.

(** [board.piece_at(to_square) or board.piece_at(from_square)] *)
Definition captured_piece (b : Board position) (m : Move) : option Piece :=
  match piece_at (state b) (to_square m) with
  | Some piece => Some piece
  | None => piece_at (state b) (from_square m)
  end.

(** The capture bookkeeping done before a push: the list with the symbol
    appended when the move captures and a piece was found. *)
Definition track_capture (b : Board position) (m : Move)
    (l : list string) : list string :=
  if is_capture (state b) m then
    match captured_piece b m with
    | Some piece => l ++ [symbol piece]
    | None => l
    end
  else l.

(** [Board._from_chess960] of the rules library in a standard game: a
    king's move from e1 to h1 or a1, or from e8 to h8 or a8, is castling
    written as king to rook, and is read as the king going two squares, the
    form in which the generator yields castling. *)
Definition from_chess960 (p : position) (m : Move) : Move :=
  let king_on sq :=
    match piece_at p sq with
    | Some piece => bool_decide (piece_type piece = KING)
    | None => false
    end in
  let castling from to :=
    {| from_square := from; to_square := to; promotion := None |} in
  let a1 := 0 in let c1 := 2 in let e1 := 4 in
  let g1 := 6 in let h1 := 7 in
  let a8 := 56 in let c8 := 58 in let e8 := 60 in
  let g8 := 62 in let h8 := 63 in
  match promotion m with
  | Some _ => m
  | None =>
      if (from_square m =? e1) && king_on e1 then
        if to_square m =? h1 then castling e1 g1
        else if to_square m =? a1 then castling e1 c1
        else m
      else if (from_square m =? e8) && king_on e8 then
        if to_square m =? h8 then castling e8 g8
        else if to_square m =? a8 then castling e8 c8
        else m
      else m
  end.

(** [move in board.legal_moves] for a move between squares of the board.
    The test is [Board.is_legal], not a search of the generated list: it
    passes the moves the generator yields and castling written as king to
    rook, when the generator yields that castling move. *)
Definition in_legal_move_set (b : Board position) (m : Move) : bool :=
  bool_decide (m ∈ legal_moves (state b))
  || bool_decide (from_chess960 (state b) m ∈ legal_moves (state b)).

(** What the library answers at lines 140 to 145, where the program reads
    [board.piece_at(from_square)] and tests [move in board.legal_moves]:
    [Some true] for a move the generator yields.  For any other move the
    answer is [None], an [IndexError], when the origin index is outside the
    library's tables, or when the origin holds a piece and the destination
    index is outside them (for a vacant origin the test answers before it
    reads the destination); it is [Some false] otherwise.  Two kinds of
    request are not answered here as the library answers them: castling
    written as king to rook, which the library passes
    ([in_legal_move_set]), and moves with an index -64..-1, which the
    library reads as squares of the board.  What is stated below of rejected
    moves is stated of the other requests. *)
Definition legality_test (b : Board position) (move : Move) : option bool :=
  if bool_decide (move ∈ legal_moves (state b)) then Some true
  else if negb (square_in_table (from_square move)) then None
  else match piece_at (state b) (from_square move) with
       | None => Some false
       | Some _ =>
           if square_in_table (to_square move) then Some false else None
       end.

(** [make_move]; [engine_play] stands for
    [engine.play(board, Limit(time=0.5)).move].  An exception of the
    library is raised before anything is written, so the dictionary is
    returned as it was. *)
Definition make_move (games : gmap string GameSession)
    (cookie : option string) (data : MoveRequest)
    (engine_play : Board position -> Move)
  : gmap string GameSession * Response :=
  match active_game games cookie with
  | None => (games, ErrorResponse "No active game")
  | Some (game_id, game_session) =>
      let b := board game_session in
      let move := candidate_move b data in
      match legality_test b move with
      | None => (games, InternalError)
      | Some false => (games, ErrorResponse "Invalid move")
      | Some true =>
        let white1 :=
          track_capture b move (white (captured_pieces game_session)) in
        let b1 := push b move in
        if negb (is_game_over b1) then
          let ai_move := engine_play b1 in
          let black1 :=
            track_capture b1 ai_move
              (black (captured_pieces game_session)) in
          let b2 := push b1 ai_move in
          let games' :=
            <[game_id := {| board := b2;
                            captured_pieces :=
                              {| white := white1; black := black1 |} |}]>
              games in
          (games', MoveResponse (game_state_to_dict games' game_id) true)
        else
          let games' :=
            <[game_id := {| board := b1;
                            captured_pieces :=
                              {| white := white1;
                                 black :=
                                   black (captured_pieces game_session) |}
                         |}]>
              games in
          (games', MoveResponse (game_state_to_dict games' game_id) false)
      end
  end.

(** [get_valid_moves] on the request body [{row, col}]. *)
Definition get_valid_moves (games : gmap string GameSession)
    (cookie : option string) (row col : Z)
  : gmap string GameSession * Response :=
  match active_game games cookie with
  | None => (games, ErrorResponse "No active game")
  | Some (_, game_session) =>
      let from_sq := chess_square col (7 - row) in
      let valid_moves_coords :=
        map (fun move => (7 - square_rank (to_square move),
                          square_file (to_square move)))
            (filter (fun move => from_square move = from_sq)
                    (legal_moves (state (board game_session)))) in
      (games, ValidMovesResponse valid_moves_coords)
  end.

(** [undo_move].  The branches that answer [InternalError] are the places
    where [board.pop()] or [list.pop()] would raise; the dictionary they
    return holds what had been changed in place up to there. *)
Definition undo_move (games : gmap string GameSession)
    (cookie : option string) : gmap string GameSession * Response :=
  match active_game games cookie with
  | None => (games, ErrorResponse "No active game")
  | Some (game_id, game_session) =>
      let b := board game_session in
      let white0 := white (captured_pieces game_session) in
      let black0 := black (captured_pieces game_session) in
      let store b' w' k' :=
        <[game_id := {| board := b';
                        captured_pieces := {| white := w'; black := k' |}
                     |}]> games in
      if (2 <=? length (move_stack b))%nat then
        match pop b with
        | None => (games, InternalError)
        | Some (ai_move, b1) =>
            match (if is_capture (state b1) ai_move
                   then pop_if_nonempty black0 else Some black0) with
            | None => (store b1 white0 black0, InternalError)
            | Some black1 =>
                match pop b1 with
                | None => (store b1 white0 black1, InternalError)
                | Some (player_move, b2) =>
                    match (if is_capture (state b2) player_move
                           then pop_if_nonempty white0
                           else Some white0) with
                    | None => (store b2 white0 black1, InternalError)
                    | Some white1 =>
                        let games' := store b2 white1 black1 in
                        (games',
                         GameStateResponse
                           (game_state_to_dict games' game_id))
                    end
                end
            end
        end
      else (games, ErrorResponse "Cannot undo")
  end.

(** [get_game_state_route] *)
Definition get_game_state_route (games : gmap string GameSession)
    (cookie : option string) : gmap string GameSession * Response :=
  match active_game games cookie with
  | None => (games, ErrorResponse "No active game")
  | Some (game_id, _) =>
      (games, GameStateResponse (game_state_to_dict games game_id))
  end.

(** *** Runs of the protocol *)

(** A request of one client; a move request comes with the move the engine
    answers when it is asked. *)
Inductive Operation :=
| SubmitMove (data : MoveRequest) (reply : Move)
| UndoLastExchange.

Definition perform (games : gmap string GameSession)
    (cookie : option string) (op : Operation)
  : gmap string GameSession * Response :=
  match op with
  | SubmitMove data reply => make_move games cookie data (fun _ => reply)
  | UndoLastExchange => undo_move games cookie
  end.

Fixpoint run (games : gmap string GameSession) (cookie : option string)
    (ops : list Operation) : gmap string GameSession * list Response :=
  match ops with
  | [] => (games, [])
  | op :: rest =>
      let r := perform games cookie op in
      let rs := run (fst r) cookie rest in
      (fst rs, snd r :: snd rs)
  end.

(** The number of symbols in the two capture lists of a session. *)
Definition captured_total (game_session : GameSession) : nat :=
  (length (white (captured_pieces game_session))
   + length (black (captured_pieces game_session)))%nat.

(** The number of capturing moves on the move stack: every move is judged
    in the position it was played in. *)
Definition captures_on_stack (b : Board position) : nat :=
  length (filter (fun mp => is_capture (snd mp) (fst mp) = true) (stack b)).

(** A property of the rules library the bookkeeping relies on: a legal
    move starts on an occupied square. *)
Definition origin_occupied : Prop :=
  forall (p : position) (m : Move),
    m ∈ legal_moves p -> piece_at p (from_square m) <> None.

End Server.

Arguments GameSession : clear implicits.
Arguments origin_occupied : clear implicits.

(** The squares a request names lie on the board. *)
Definition on_board_square (row col : Z) : Prop :=
  0 <= row < 8 /\ 0 <= col < 8.

Definition on_board_request (data : MoveRequest) : Prop :=
  on_board_square (from_row data) (from_col data)
  /\ on_board_square (to_row data) (to_col data).

(** The standard starting arrangement, by square. *)
Definition standard_piece_at (sq : Z) : option Piece :=
  let back (c : bool) :=
    match square_file sq with
    | 0 | 7 => Some {| piece_type := ROOK; color := c |}
    | 1 | 6 => Some {| piece_type := KNIGHT; color := c |}
    | 2 | 5 => Some {| piece_type := BISHOP; color := c |}
    | 3 => Some {| piece_type := QUEEN; color := c |}
    | 4 => Some {| piece_type := KING; color := c |}
    | _ => None
    end in
  match square_rank sq with
  | 0 => back WHITE
  | 1 => Some {| piece_type := PAWN; color := WHITE |}
  | 6 => Some {| piece_type := PAWN; color := BLACK |}
  | 7 => back BLACK
  | _ => None
  end.

(** The grid the page shows at the start: row 0 is rank 8, upper case is
    white. *)
Definition standard_grid : list (list (option string)) :=
  [ map Some ["r"; "n"; "b"; "q"; "k"; "b"; "n"; "r"];
    repeat (Some "p") 8;
    repeat None 8; repeat None 8; repeat None 8; repeat None 8;
    repeat (Some "P") 8;
    map Some ["R"; "N"; "B"; "Q"; "K"; "B"; "N"; "R"] ].

(** ** The rules of chess *)

(** Modelled from the spec: the rules engine collaborator (the python-chess
    library), which the program calls and the repository does not contain.
    The module implements the interface [Rules] with the rules of chess: a
    position is the piece placement, the side to move, the castling rights
    (the rooks that may still castle, as a bit set of their squares), the
    en-passant square and the two move counters; the game ends by checkmate,
    stalemate, insufficient material, the seventy-five-move rule and fivefold
    repetition.  An index -64..-1 reads the board from its end, as Python
    does; outside -64..63, where the library raises, no piece is read. *)
Module Chess.

Record Position := {
  squares : list (option Piece);
  turn : bool;
  castling_rights : Z;
  ep_square : option Z;
  halfmove_clock : Z;
  fullmove_number : Z
}.

Definition on_board (sq : Z) : bool := (0 <=? sq) && (sq <? 64).

Definition piece_at (p : Position) (sq : Z) : option Piece :=
  if square_in_table sq then nth (Z.to_nat (sq mod 64)) (squares p) None
  else None.

Definition all_squares : list Z := map Z.of_nat (seq 0 64).

Definition is_type (pt : PieceType) (pc : Piece) : bool :=
  match pt, piece_type pc with
  | PAWN, PAWN | KNIGHT, KNIGHT | BISHOP, BISHOP
  | ROOK, ROOK | QUEEN, QUEEN | KING, KING => true
  | _, _ => false
  end.

Definition has_piece (p : Position) (sq : Z) (pt : PieceType) (c : bool)
  : bool :=
  match piece_at p sq with
  | Some pc => is_type pt pc && eqb (color pc) c
  | None => false
  end.

Definition occupied (p : Position) (sq : Z) : bool :=
  match piece_at p sq with Some _ => true | None => false end.

Definition occupied_by (p : Position) (c : bool) (sq : Z) : bool :=
  match piece_at p sq with Some pc => eqb (color pc) c | None => false end.

(** The square [df] files and [dr] ranks away, if it is on the board. *)
Definition offset (sq df dr : Z) : option Z :=
  let f := square_file sq + df in
  let r := square_rank sq + dr in
  if (0 <=? f) && (f <? 8) && (0 <=? r) && (r <? 8)
  then Some (chess_square f r) else None.

Definition knight_steps : list (Z * Z) :=
  [(1, 2); (2, 1); (2, -1); (1, -2); (-1, -2); (-2, -1); (-2, 1); (-1, 2)].
Definition king_steps : list (Z * Z) :=
  [(1, 0); (1, 1); (0, 1); (-1, 1); (-1, 0); (-1, -1); (0, -1); (1, -1)].
Definition rook_dirs : list (Z * Z) := [(1, 0); (0, 1); (-1, 0); (0, -1)].
Definition bishop_dirs : list (Z * Z) :=
  [(1, 1); (-1, 1); (-1, -1); (1, -1)].

Definition step_targets (sq : Z) (steps : list (Z * Z)) : list Z :=
  omap (fun d => offset sq (fst d) (snd d)) steps.

(** The squares of a line from [sq], up to and including the first
    occupied one. *)
Fixpoint ray (p : Position) (fuel : nat) (sq df dr : Z) : list Z :=
  match fuel with
  | O => []
  | S n =>
      match offset sq df dr with
      | None => []
      | Some t =>
          if occupied p t then [t] else t :: ray p n t df dr
      end
  end.

(** The first piece met on a line from [sq]. *)
Fixpoint first_piece (p : Position) (fuel : nat) (sq df dr : Z)
  : option Piece :=
  match fuel with
  | O => None
  | S n =>
      match offset sq df dr with
      | None => None
      | Some t =>
          match piece_at p t with
          | Some pc => Some pc
          | None => first_piece p n t df dr
          end
      end
  end.

Definition slider_on_line (p : Position) (c : bool) (sq : Z)
    (pt : PieceType) (d : Z * Z) : bool :=
  match first_piece p 7 sq (fst d) (snd d) with
  | Some pc => eqb (color pc) c && (is_type pt pc || is_type QUEEN pc)
  | None => false
  end.

(** Does a piece of colour [c] attack the square [sq]? *)
Definition is_attacked_by (p : Position) (c : bool) (sq : Z) : bool :=
  existsb (fun t => has_piece p t KNIGHT c) (step_targets sq knight_steps)
  || existsb (fun t => has_piece p t KING c) (step_targets sq king_steps)
  || existsb (fun t => has_piece p t PAWN c)
       (step_targets sq (let dr := if c then -1 else 1 in
                         [(1, dr); (-1, dr)]))
  || existsb (slider_on_line p c sq ROOK) rook_dirs
  || existsb (slider_on_line p c sq BISHOP) bishop_dirs.

Definition king (p : Position) (c : bool) : option Z :=
  find (fun sq => has_piece p sq KING c) all_squares.

Definition king_attacked (p : Position) (c : bool) : bool :=
  match king p c with
  | Some k => is_attacked_by p (negb c) k
  | None => false
  end.

Definition is_check (p : Position) : bool := king_attacked p (turn p).

(** *** Playing a move *)

Definition BB_SQUARE (sq : Z) : Z := Z.shiftl 1 sq.

Definition set_piece_at (l : list (option Piece)) (sq : Z)
    (v : option Piece) : list (option Piece) :=
  if on_board sq then <[Z.to_nat sq := v]> l else l.

Definition is_en_passant (p : Position) (m : Move) : bool :=
  bool_decide (ep_square p = Some (to_square m))
  && match piece_at p (from_square m) with
     | Some pc => is_type PAWN pc
     | None => false
     end
  && (let d := Z.abs (to_square m - from_square m) in (d =? 7) || (d =? 9))
  && negb (occupied p (to_square m)).

(** A move captures when one of its two squares holds a piece of the side
    not to move, or when it is an en-passant capture. *)
Definition is_capture (p : Position) (m : Move) : bool :=
  occupied_by p (negb (turn p)) (from_square m)
  || occupied_by p (negb (turn p)) (to_square m)
  || is_en_passant p m.

(** Moves that reset the half-move clock: pawn moves and captures. *)
Definition is_zeroing (p : Position) (m : Move) : bool :=
  has_piece p (from_square m) PAWN true
  || has_piece p (from_square m) PAWN false
  || has_piece p (to_square m) PAWN true
  || has_piece p (to_square m) PAWN false
  || occupied_by p (negb (turn p)) (from_square m)
  || occupied_by p (negb (turn p)) (to_square m).

Definition is_castling (p : Position) (m : Move) : bool :=
  match piece_at p (from_square m) with
  | Some pc =>
      is_type KING pc
      && ((1 <? Z.abs (square_file (from_square m)
                       - square_file (to_square m)))
          || has_piece p (to_square m) ROOK (turn p))
  | None => false
  end.

(** The rook's move that goes with a castling move of the king. *)
Definition castling_rook (m : Move) : Z * Z :=
  let r := square_rank (from_square m) in
  if square_file (to_square m) <? square_file (from_square m)
  then (chess_square 0 r, chess_square 3 r)
  else (chess_square 7 r, chess_square 5 r).

Definition rank_rights (c : bool) : Z :=
  if c then Z.lor (BB_SQUARE 0) (BB_SQUARE 7)
  else Z.lor (BB_SQUARE 56) (BB_SQUARE 63).

(** The position after a move.  A move from an empty square is not played
    (the library asserts that the move is pseudo-legal). *)
Definition apply_move (p : Position) (m : Move) : Position :=
  match piece_at p (from_square m) with
  | None => p
  | Some pc =>
      let c := turn p in
      let f := from_square m in
      let t := to_square m in
      let pawn := is_type PAWN pc in
      let kingmove := is_type KING pc in
      let placed :=
        match promotion m with
        | Some pt => {| piece_type := pt; color := c |}
        | None => {| piece_type := piece_type pc; color := c |}
        end in
      let s1 := set_piece_at (squares p) f None in
      let s2 :=
        if is_en_passant p m
        then set_piece_at s1 (t + (if c then -8 else 8)) None
        else s1 in
      let s3 := set_piece_at s2 t (Some placed) in
      let s4 :=
        if is_castling p m then
          let rk := castling_rook m in
          set_piece_at (set_piece_at s3 (fst rk) None) (snd rk)
            (Some {| piece_type := ROOK; color := c |})
        else s3 in
      let cr1 :=
        Z.ldiff (Z.ldiff (castling_rights p) (BB_SQUARE t)) (BB_SQUARE f) in
      let cr2 := if kingmove then Z.ldiff cr1 (rank_rights c) else cr1 in
      let ep :=
        if pawn && (t - f =? 16) && (square_rank f =? 1) then Some (f + 8)
        else if pawn && (t - f =? -16) && (square_rank f =? 6)
             then Some (f - 8)
             else None in
      {| squares := s4;
         turn := negb c;
         castling_rights := cr2;
         ep_square := ep;
         halfmove_clock :=
           if is_zeroing p m then 0 else halfmove_clock p + 1;
         fullmove_number :=
           if c then fullmove_number p else fullmove_number p + 1 |}
  end.

(** *** Move generation *)

Definition not_own (p : Position) (t : Z) : bool :=
  negb (occupied_by p (turn p) t).

Definition plain (ts : list Z) : list (Z * option PieceType) :=
  map (fun t => (t, None)) ts.

(** A pawn's move to [t]: the four promotions on the last rank. *)
Definition pawn_to (c : bool) (t : Z) : list (Z * option PieceType) :=
  if square_rank t =? (if c then 7 else 0)
  then [(t, Some QUEEN); (t, Some ROOK); (t, Some BISHOP);
        (t, Some KNIGHT)]
  else [(t, None)].

Definition pawn_targets (p : Position) (sq : Z)
  : list (Z * option PieceType) :=
  let c := turn p in
  let dr := if c then 1 else -1 in
  let captures :=
    filter (fun t => occupied_by p (negb c) t = true)
           (step_targets sq [(-1, dr); (1, dr)]) in
  let single :=
    match offset sq 0 dr with
    | Some t => if occupied p t then [] else [t]
    | None => []
    end in
  let double :=
    if square_rank sq =? (if c then 1 else 6) then
      match offset sq 0 dr, offset sq 0 (2 * dr) with
      | Some t1, Some t2 =>
          if occupied p t1 || occupied p t2 then [] else [t2]
      | _, _ => []
      end
    else [] in
  let en_passant :=
    match ep_square p with
    | Some e =>
        if negb (occupied p e) && (square_rank sq =? (if c then 4 else 3))
        then filter (fun t => t = e) (step_targets sq [(-1, dr); (1, dr)])
        else []
    | None => []
    end in
  flat_map (pawn_to c) captures ++ flat_map (pawn_to c) single
  ++ plain double ++ plain en_passant.

(** Castling: the rook still has its right and stands on its corner, the
    squares between king and rook are empty, and the king neither stands
    on, passes over nor lands on an attacked square. *)
Definition castling_targets (p : Position) (sq : Z) : list Z :=
  let c := turn p in
  let r := if c then 0 else 7 in
  if (sq =? chess_square 4 r) && negb (king_attacked p c) then
    (if Z.testbit (castling_rights p) (chess_square 7 r)
        && has_piece p (chess_square 7 r) ROOK c
        && negb (occupied p (chess_square 5 r))
        && negb (occupied p (chess_square 6 r))
        && negb (is_attacked_by p (negb c) (chess_square 5 r))
        && negb (is_attacked_by p (negb c) (chess_square 6 r))
     then [chess_square 6 r] else [])
    ++
    (if Z.testbit (castling_rights p) (chess_square 0 r)
        && has_piece p (chess_square 0 r) ROOK c
        && negb (occupied p (chess_square 1 r))
        && negb (occupied p (chess_square 2 r))
        && negb (occupied p (chess_square 3 r))
        && negb (is_attacked_by p (negb c) (chess_square 3 r))
        && negb (is_attacked_by p (negb c) (chess_square 2 r))
     then [chess_square 2 r] else [])
  else [].

Definition slide_targets (p : Position) (sq : Z) (dirs : list (Z * Z))
  : list Z :=
  flat_map (fun d => ray p 7 sq (fst d) (snd d)) dirs.

(** The targets of the piece [pc] standing on [sq]. *)
Definition piece_targets (p : Position) (sq : Z) (pc : Piece)
  : list (Z * option PieceType) :=
  match piece_type pc with
  | PAWN => pawn_targets p sq
  | KNIGHT =>
      plain (filter (fun t => not_own p t = true)
               (step_targets sq knight_steps))
  | BISHOP =>
      plain (filter (fun t => not_own p t = true)
               (slide_targets p sq bishop_dirs))
  | ROOK =>
      plain (filter (fun t => not_own p t = true)
               (slide_targets p sq rook_dirs))
  | QUEEN =>
      plain (filter (fun t => not_own p t = true)
               (slide_targets p sq (rook_dirs ++ bishop_dirs)))
  | KING =>
      plain (filter (fun t => not_own p t = true)
               (step_targets sq king_steps)
             ++ castling_targets p sq)
  end.

Definition moves_from (p : Position) (sq : Z) : list Move :=
  match piece_at p sq with
  | Some pc =>
      if eqb (color pc) (turn p) then
        map (fun tp => {| from_square := sq; to_square := fst tp;
                          promotion := snd tp |})
            (piece_targets p sq pc)
      else []
  | None => []
  end.

Definition pseudo_legal_moves (p : Position) : list Move :=
  flat_map (moves_from p) all_squares.

(** A pseudo-legal move is legal when it does not leave the mover's king
    attacked. *)
Definition is_safe (p : Position) (m : Move) : bool :=
  negb (king_attacked (apply_move p m) (turn p)).

Definition legal_moves (p : Position) : list Move :=
  filter (fun m => is_safe p m = true) (pseudo_legal_moves p).

Definition starting_position : Position :=
  let back (c : bool) :=
    map (fun pt => Some {| piece_type := pt; color := c |})
        [ROOK; KNIGHT; BISHOP; QUEEN; KING; BISHOP; KNIGHT; ROOK] in
  let pawns (c : bool) :=
    repeat (Some {| piece_type := PAWN; color := c |}) 8 in
  {| squares := back true ++ pawns true ++ repeat None 32
                ++ pawns false ++ back false;
     turn := true;
     castling_rights := Z.lor (rank_rights true) (rank_rights false);
     ep_square := None;
     halfmove_clock := 0;
     fullmove_number := 1 |}.

(** *** Ends of the game *)

Definition no_legal_moves (p : Position) : bool :=
  match legal_moves p with [] => true | _ => false end.

Definition is_checkmate (p : Position) : bool :=
  is_check p && no_legal_moves p.

Definition is_stalemate (p : Position) : bool :=
  negb (is_check p) && no_legal_moves p.

Definition count_squares (f : Z -> bool) : nat :=
  length (filter (fun sq => f sq = true) all_squares).

Definition any_square (f : Z -> bool) : bool := existsb f all_squares.

Definition light_square (sq : Z) : bool :=
  Z.odd (square_file sq + square_rank sq).

Definition is_bishop_at (p : Position) (sq : Z) : bool :=
  has_piece p sq BISHOP true || has_piece p sq BISHOP false.

(** The side [c] cannot mate with what it has: no pawn, rook or queen; a
    knight only when it is that side's single piece beside the king and the
    opponent has nothing but king and queens; bishops only when all bishops
    of the board stand on squares of one colour and there is no pawn or
    knight at all. *)
Definition has_insufficient_material (p : Position) (c : bool) : bool :=
  if any_square (fun sq => has_piece p sq PAWN c || has_piece p sq ROOK c
                           || has_piece p sq QUEEN c)
  then false
  else if any_square (fun sq => has_piece p sq KNIGHT c) then
    (count_squares (occupied_by p c) <=? 2)%nat
    && negb (any_square (fun sq =>
               occupied_by p (negb c) sq
               && negb (has_piece p sq KING (negb c))
               && negb (has_piece p sq QUEEN (negb c))))
  else if any_square (fun sq => has_piece p sq BISHOP c) then
    (negb (any_square (fun sq => is_bishop_at p sq && negb (light_square sq)))
     || negb (any_square (fun sq => is_bishop_at p sq && light_square sq)))
    && negb (any_square (fun sq => has_piece p sq PAWN true
                                   || has_piece p sq PAWN false))
    && negb (any_square (fun sq => has_piece p sq KNIGHT true
                                   || has_piece p sq KNIGHT false))
  else true.

Definition is_insufficient_material (p : Position) : bool :=
  has_insufficient_material p true && has_insufficient_material p false.

(** 150 half-moves without a pawn move or capture, and a move to play. *)
Definition is_seventyfive_moves (p : Position) : bool :=
  (150 <=? halfmove_clock p) && negb (no_legal_moves p).

Definition has_legal_en_passant (p : Position) : bool :=
  match ep_square p with
  | Some _ => existsb (is_en_passant p) (legal_moves p)
  | None => false
  end.

(** The castling rights that can still be used: the rook stands on its
    corner and the king on its square. *)
Definition clean_castling_rights (p : Position) : Z :=
  fold_right
    (fun cs acc =>
       let c := fst cs in
       let sq := snd cs in
       if Z.testbit (castling_rights p) sq && has_piece p sq ROOK c
          && has_piece p (chess_square 4 (square_rank sq)) KING c
       then Z.lor (BB_SQUARE sq) acc else acc)
    0 [(true, 0); (true, 7); (false, 56); (false, 63)].

Definition reduces_castling_rights (p : Position) (m : Move) : bool :=
  let cr := clean_castling_rights p in
  let touches_king (c : bool) :=
    has_piece p (from_square m) KING c || has_piece p (to_square m) KING c in
  Z.testbit cr (from_square m) || Z.testbit cr (to_square m)
  || (negb (Z.land cr (rank_rights true) =? 0) && touches_king true)
  || (negb (Z.land cr (rank_rights false) =? 0) && touches_king false).

Definition is_irreversible (p : Position) (m : Move) : bool :=
  is_zeroing p m || reduces_castling_rights p m || has_legal_en_passant p.

(** What makes two positions the same for the repetition rules. *)
Definition transposition_key (p : Position)
  : list (option Piece) * bool * Z * option Z :=
  (squares p, turn p, clean_castling_rights p,
   if has_legal_en_passant p then ep_square p else None).

(** Walks back over the moves played, up to the first irreversible one,
    and counts the positions equal to the current one. *)
Fixpoint repetition_walk (key : list (option Piece) * bool * Z * option Z)
    (count : nat) (hist : list (Move * Position)) : bool :=
  if (count <=? 1)%nat then true
  else if (length hist <? count - 1)%nat then false
  else match hist with
       | [] => false
       | (m, p) :: rest =>
           if is_irreversible p m then false
           else if bool_decide (transposition_key p = key)
                then repetition_walk key (count - 1) rest
                else repetition_walk key count rest
       end.

Definition is_fivefold_repetition (b : Board Position) : bool :=
  repetition_walk (transposition_key (state b)) 5 (stack b).

Definition is_game_over (b : Board Position) : bool :=
  is_checkmate (state b) || is_insufficient_material (state b)
  || no_legal_moves (state b) || is_seventyfive_moves (state b)
  || is_fivefold_repetition b.

Definition result (b : Board Position) : string :=
  if is_checkmate (state b) then
    (if turn (state b) then "0-1" else "1-0")
  else if is_game_over b then "1/2-1/2"
  else "*".

(** *** Algebraic notation *)

Definition file_name (f : Z) : string :=
  nth (Z.to_nat f) ["a"; "b"; "c"; "d"; "e"; "f"; "g"; "h"] "".

Definition rank_name (r : Z) : string :=
  nth (Z.to_nat r) ["1"; "2"; "3"; "4"; "5"; "6"; "7"; "8"] "".

Definition square_name (sq : Z) : string :=
  file_name (square_file sq) +:+ rank_name (square_rank sq).

(** The file, the rank or both of the origin, when another piece of the
    same kind can legally go to the same square. *)
Definition disambiguation (p : Position) (m : Move) (pt : PieceType)
  : string :=
  let others :=
    map from_square
      (filter (fun c => has_piece p (from_square c) pt (turn p) = true
                        /\ from_square c <> from_square m
                        /\ to_square c = to_square m)
              (legal_moves p)) in
  match others with
  | [] => ""
  | _ =>
      let same_rank :=
        existsb (fun o => square_rank o =? square_rank (from_square m))
                others in
      let same_file :=
        existsb (fun o => square_file o =? square_file (from_square m))
                others in
      let row := same_file in
      let column := same_rank || negb same_file in
      (if column then file_name (square_file (from_square m)) else "")
      +:+ (if row then rank_name (square_rank (from_square m)) else "")
  end.

Definition san_without_suffix (p : Position) (m : Move) : string :=
  if (from_square m =? 0) && (to_square m =? 0)
     && bool_decide (promotion m = None) then "--"
  else if is_castling p m then
    (if square_file (to_square m) <? square_file (from_square m)
     then "O-O-O" else "O-O")
  else
    let capture := is_capture p m in
    let origin :=
      match piece_at p (from_square m) with
      | Some pc =>
          match piece_type pc with
          | PAWN =>
              if capture then file_name (square_file (from_square m))
              else ""
          | pt => piece_symbol_upper pt +:+ disambiguation p m pt
          end
      | None => ""
      end in
    origin +:+ (if capture then "x" else "")
    +:+ square_name (to_square m)
    +:+ match promotion m with
        | Some pt => "=" +:+ piece_symbol_upper pt
        | None => ""
        end.

Definition san (p : Position) (m : Move) : string :=
  let after := apply_move p m in
  san_without_suffix p m
  +:+ (if is_checkmate after then "#"
       else if is_check after then "+" else "").

(** The number of lines of play of [n] moves, the usual test of a move
    generator. *)
Fixpoint perft (n : nat) (p : Position) : Z :=
  match n with
  | O => 1
  | S k => fold_left (fun acc m => acc + perft k (apply_move p m))
             (legal_moves p) 0
  end.

End Chess.

(** The rules of chess as an instance of the interface. *)
Definition chess_rules : Rules :=
  {| position := Chess.Position;
     starting_position := Chess.starting_position;
     piece_at := Chess.piece_at;
     turn := Chess.turn;
     legal_moves := Chess.legal_moves;
     is_capture := Chess.is_capture;
     apply_move := Chess.apply_move;
     is_check := Chess.is_check;
     is_checkmate := Chess.is_checkmate;
     is_stalemate := Chess.is_stalemate;
     is_insufficient_material := Chess.is_insufficient_material;
     is_seventyfive_moves := Chess.is_seventyfive_moves;
     is_fivefold_repetition := Chess.is_fivefold_repetition;
     is_game_over := Chess.is_game_over;
     result := Chess.result;
     san := Chess.san |}.

(** ** Games to run the server on *)

(** The session stored under an identifier (a new session when there is
    none). *)
Definition the_session {R : Rules} (games : gmap string (GameSession R))
    (game_id : string) : GameSession R :=
  match games !! game_id with
  | Some game_session => game_session
  | None => {| board := new_board;
               captured_pieces := {| white := []; black := [] |} |}
  end.

Definition has_session {R : Rules} (games : gmap string (GameSession R))
    (game_id : string) : bool :=
  match games !! game_id with
  | Some _ => true
  | None => false
  end.

(** The request the page sends for a move between two squares: rows are
    counted from the top of the board. *)
Definition request (from to : Z) : MoveRequest :=
  {| from_row := 7 - square_rank from; from_col := square_file from;
     to_row := 7 - square_rank to; to_col := square_file to |}.

Definition plain_move (from to : Z) : Move :=
  {| from_square := from; to_square := to; promotion := None |}.

(** A move of the player and the reply of the engine. *)
Definition exchange (from to reply_from reply_to : Z)
  : Operation :=
  SubmitMove (request from to) (plain_move reply_from reply_to).

(** The squares named in the games below. *)
Module Sq.
Definition a5 : Z := chess_square 0 4.
Definition a6 : Z := chess_square 0 5.
Definition a7 : Z := chess_square 0 6.
Definition c4 : Z := chess_square 2 3.
Definition c6 : Z := chess_square 2 5.
Definition b8 : Z := chess_square 1 7.
Definition d1 : Z := chess_square 3 0.
Definition d2 : Z := chess_square 3 1.
Definition d4 : Z := chess_square 3 3.
Definition d5 : Z := chess_square 3 4.
Definition d6 : Z := chess_square 3 5.
Definition d7 : Z := chess_square 3 6.
Definition e2 : Z := chess_square 4 1.
Definition e4 : Z := chess_square 4 3.
Definition e5 : Z := chess_square 4 4.
Definition e7 : Z := chess_square 4 6.
Definition f1 : Z := chess_square 5 0.
Definition f6 : Z := chess_square 5 5.
Definition f7 : Z := chess_square 5 6.
Definition g5 : Z := chess_square 6 4.
Definition g7 : Z := chess_square 6 6.
Definition g8 : Z := chess_square 6 7.
Definition h5 : Z := chess_square 7 4.
End Sq.

(** The session dictionary after [new_game] on an empty server. *)
Definition fresh_games : gmap string (GameSession chess_rules) :=
  fst (fst (new_game ∅ "game")).

Definition client : option string := Some "game".

(** 1. e4 e5 2. Bc4 Nc6 3. Qh5 Nf6 4. Qxf7 mate: the player's last move is a
    capture and ends the game, so the engine is not asked for a reply. *)
Definition scholars_mate : list Operation :=
  [ exchange Sq.e2 Sq.e4 Sq.e7 Sq.e5;
    exchange Sq.f1 Sq.c4 Sq.b8 Sq.c6;
    exchange Sq.d1 Sq.h5 Sq.g8 Sq.f6;
    exchange Sq.h5 Sq.f7 0 0 ].

(** 1. e4 a6 2. e5 d5, after which the pawn on e5 can take the pawn on d5
    en passant. *)
Definition en_passant_opening : list Operation :=
  [ exchange Sq.e2 Sq.e4 Sq.a7 Sq.a6;
    exchange Sq.e4 Sq.e5 Sq.d7 Sq.d5 ].

(** 1. e4 f6 2. d4 g5 3. Qh5 mate, without any capture. *)
Definition quick_mate : list Operation :=
  [ exchange Sq.e2 Sq.e4 Sq.f7 Sq.f6;
    exchange Sq.d2 Sq.d4 Sq.g7 Sq.g5;
    exchange Sq.d1 Sq.h5 0 0 ].

(** 1. h4 g5 2. hxg5 h6 3. gxh6 a6 4. h7 a5, after which the pawn on h7 can
    take the knight on g8 and promote. *)
Definition promotion_opening : list Operation :=
  [ exchange (chess_square 7 1) (chess_square 7 3) Sq.g7 Sq.g5;
    exchange (chess_square 7 3) Sq.g5 (chess_square 7 6) (chess_square 7 5);
    exchange Sq.g5 (chess_square 7 5) Sq.a7 Sq.a6;
    exchange (chess_square 7 5) (chess_square 7 6) Sq.a6 Sq.a5 ].

(** The dictionary after scholar's mate and an undo. *)
Definition mate_undone : gmap string (GameSession chess_rules) :=
  fst (run fresh_games client (scholars_mate ++ [UndoLastExchange])).

(** The dictionary after the first three exchanges of scholar's mate, when
    the queen on h5 can take on f7 and mate. *)
Definition mate_in_one : gmap string (GameSession chess_rules) :=
  fst (run fresh_games client (removelast scholars_mate)).

(** 1. e4 e5 2. Nf3 Nc6 3. Bc4 Bc5, after which White can castle on the
    king's side. *)
Definition italian_opening : list Operation :=
  [ exchange Sq.e2 Sq.e4 Sq.e7 Sq.e5;
    exchange (chess_square 6 0) (chess_square 5 2) Sq.b8 Sq.c6;
    exchange Sq.f1 Sq.c4 (chess_square 5 7) (chess_square 2 4) ].

(** ** Reachable session dictionaries *)

Section Reachable.
Context {R : Rules}.

(** The engine answers with a legal move whenever [make_move] asks it, that
    is, after an accepted move that does not end the game. *)
Definition reply_legal (games : gmap string (GameSession R))
    (cookie : option string) (data : MoveRequest)
    (engine_play : Board position -> Move) : Prop :=
  forall game_id gs,
    active_game games cookie = Some (game_id, gs) ->
    candidate_move (board gs) data ∈ legal_moves (state (board gs)) ->
    is_game_over (push (board gs) (candidate_move (board gs) data)) = false ->
    engine_play (push (board gs) (candidate_move (board gs) data))
      ∈ legal_moves
          (state (push (board gs) (candidate_move (board gs) data))).

(** The dictionaries the server can hold: it starts empty and changes by
    [new_game], [make_move] and [undo_move]; the other two routes return the
    dictionary they were given. *)
Inductive reachable : gmap string (GameSession R) -> Prop :=
| reachable_start : reachable ∅
| reachable_new_game games game_id :
    reachable games -> reachable (fst (fst (new_game games game_id)))
| reachable_make_move games cookie data engine_play :
    reachable games ->
    reply_legal games cookie data engine_play ->
    reachable (fst (make_move games cookie data engine_play))
| reachable_undo_move games cookie :
    reachable games -> reachable (fst (undo_move games cookie)).

(** [reply_legal] for one operation of a run, as a test. *)
Definition reply_legalb (games : gmap string (GameSession R))
    (cookie : option string) (op : Operation) : bool :=
  match op with
  | SubmitMove data reply =>
      match active_game games cookie with
      | Some (_, gs) =>
          let b1 := push (board gs) (candidate_move (board gs) data) in
          is_game_over b1 || bool_decide (reply ∈ legal_moves (state b1))
      | None => true
      end
  | UndoLastExchange => true
  end.

Fixpoint replies_legal (games : gmap string (GameSession R))
    (cookie : option string) (ops : list Operation) : bool :=
  match ops with
  | [] => true
  | op :: rest =>
      reply_legalb games cookie op
      && replies_legal (fst (perform games cookie op)) cookie rest
  end.

(** The boards that come from [chess.Board()] by pushing moves that are
    legal where they are pushed. *)
Inductive played : Board position -> Prop :=
| played_new_board : played new_board
| played_push b m :
    played b -> m ∈ legal_moves (state b) -> played (push b m).

(** A board is the replay of its own move stack from the starting
    position. *)
Definition replayed (b : Board position) : Prop :=
  fold_left push (move_stack b) new_board = b.

(** The moves of the stack, oldest first, each in the notation of the
    position it was played in. *)
Definition san_of_stack (b : Board position) : list string :=
  map (fun mp => san (snd mp) (fst mp)) (rev (stack b)).

(** The legal moves of a position come with the promotion [make_move]
    builds: with every legal move, the move between the same squares that
    promotes to a queen when a pawn goes to rank 0 or 7 and does not promote
    otherwise is legal too. *)
Definition queen_promotion_listed (p : position) : Prop :=
  forall m, m ∈ legal_moves p ->
    {| from_square := from_square m; to_square := to_square m;
       promotion :=
         if match piece_at p (from_square m) with
            | Some piece => bool_decide (piece_type piece = PAWN)
            | None => false
            end
            && ((square_rank (to_square m) =? 0)
                || (square_rank (to_square m) =? 7))
         then Some QUEEN else None |} ∈ legal_moves p.

(** [queen_promotion_listed] as a test on the list of legal moves. *)
Definition queen_promotion_listedb (p : position) : bool :=
  let moves := legal_moves p in
  forallb
    (fun m =>
       bool_decide
         ({| from_square := from_square m; to_square := to_square m;
             promotion :=
               if match piece_at p (from_square m) with
                  | Some piece => bool_decide (piece_type piece = PAWN)
                  | None => false
                  end
                  && ((square_rank (to_square m) =? 0)
                      || (square_rank (to_square m) =? 7))
               then Some QUEEN else None |} ∈ moves))
    moves.

(** What the library says of the end of a game: it is over by checkmate,
    insufficient material, stalemate, the seventy-five-move rule or fivefold
    repetition, and the result of a checkmate names a winner. *)
Definition game_over_cases : Prop :=
  forall b : Board position,
    is_game_over b
    = (is_checkmate (state b) || is_insufficient_material (state b)
       || is_stalemate (state b) || is_seventyfive_moves (state b)
       || is_fivefold_repetition b).

Definition checkmate_has_winner : Prop :=
  forall b : Board position,
    is_checkmate (state b) = true -> result b = "1-0" \/ result b = "0-1".

(** What the library does to the side to move: White starts and a legal
    move passes the turn. *)
Definition turn_passes : Prop :=
  turn starting_position = WHITE
  /\ forall p m, m ∈ legal_moves p -> turn (apply_move p m) = negb (turn p).

End Reachable.

Arguments reachable : clear implicits.
Arguments game_over_cases : clear implicits.
Arguments checkmate_has_winner : clear implicits.
Arguments turn_passes : clear implicits.

(** The symbols of the twelve pieces. *)
Definition piece_symbols : list string :=
  ["P"; "N"; "B"; "R"; "Q"; "K"; "p"; "n"; "b"; "r"; "q"; "k"].

(** The page's [updateStatus] sets
    [undoBtn.disabled = gameState.move_history.length < 2 || !isPlayerTurn]. *)
Definition undo_button_disabled (game_state : GameState)
    (isPlayerTurn : bool) : bool :=
  (length (gs_move_history game_state) <? 2)%nat || negb isPlayerTurn.

(** The page's [handleSquareClick] returns at once, ignoring the click, when
    [!gameState || gameState.game_over || !isPlayerTurn
     || gameState.current_player !== 'white']. *)
Definition click_ignored (game_state : option GameState)
    (isPlayerTurn : bool) : bool :=
  match game_state with
  | None => true
  | Some st =>
      gs_game_over st || negb isPlayerTurn
      || negb (bool_decide (gs_current_player st = "white"))
  end.

(** * Properties of the session protocol *)

(** ** Lists, sessions and the board object *)

Lemma pop_if_nonempty_snoc (l : list string) (x : string) :
  pop_if_nonempty (l ++ [x]) = Some l.
Proof.
  unfold pop_if_nonempty, list_pop.
  destruct (l ++ [x]) eqn:E.
  - destruct l; discriminate.
  - rewrite <- E. f_equal. apply removelast_last.
Qed.

Lemma pop_if_nonempty_total (l : list string) :
  exists l', pop_if_nonempty l = Some l'.
Proof. destruct l; simpl; eauto. Qed.

Lemma pop_if_nonempty_nil : pop_if_nonempty [] = Some [].
Proof. reflexivity. Qed.

Section ServerFacts.
Context {R : Rules}.

Lemma active_game_inv (games : gmap string (GameSession R))
    (cookie : option string) (game_id : string) (gs : GameSession R) :
  active_game games cookie = Some (game_id, gs) ->
  cookie = Some game_id /\ game_id <> "" /\ games !! game_id = Some gs.
Proof.
  unfold active_game. destruct cookie as [g|]; [|discriminate].
  destruct (decide (g = "")) as [|Hne]; [discriminate|].
  destruct (games !! g) as [s|] eqn:E; [|discriminate].
  intros H. injection H as <- <-. auto.
Qed.

Lemma active_game_insert (games : gmap string (GameSession R))
    (cookie : option string) (game_id : string) (gs gs' : GameSession R) :
  active_game games cookie = Some (game_id, gs) ->
  active_game (<[game_id := gs']> games) cookie = Some (game_id, gs').
Proof.
  intros H. apply active_game_inv in H as (-> & Hne & _).
  unfold active_game. destruct (decide (game_id = "")); [contradiction|].
  by rewrite lookup_insert_eq.
Qed.

Lemma active_game_the_session (games : gmap string (GameSession R))
    (game_id : string) :
  has_session games game_id = true ->
  negb (String.eqb game_id "") = true ->
  active_game games (Some game_id)
  = Some (game_id, the_session games game_id).
Proof.
  unfold has_session, the_session, active_game. intros Hs Hne.
  destruct (decide (game_id = "")) as [->|]; [discriminate|].
  destruct (games !! game_id); [reflexivity|discriminate].
Qed.

Lemma legality_test_legal (b : Board position) (m : Move) :
  m ∈ legal_moves (state b) -> legality_test b m = Some true.
Proof.
  intros H. unfold legality_test. by rewrite bool_decide_eq_true_2.
Qed.

Lemma legality_test_true (b : Board position) (m : Move) :
  legality_test b m = Some true -> m ∈ legal_moves (state b).
Proof.
  unfold legality_test. case_bool_decide as H; [done|].
  repeat case_match; discriminate.
Qed.

(** For a move the generator does not yield the test fails or raises, and
    it raises exactly when a lookup leaves the tables. *)
Lemma legality_test_illegal (b : Board position) (m : Move) :
  m ∉ legal_moves (state b) ->
  (legality_test b m = None
   <-> square_in_table (from_square m) = false
       \/ (piece_at (state b) (from_square m) <> None
           /\ square_in_table (to_square m) = false))
  /\ (legality_test b m = Some false \/ legality_test b m = None).
Proof.
  intros H. unfold legality_test. rewrite bool_decide_eq_false_2 by exact H.
  destruct (square_in_table (from_square m)); cbn [negb];
    [|split; [split; auto|auto]].
  destruct (piece_at (state b) (from_square m));
    [destruct (square_in_table (to_square m))|];
    (split; [split|]); auto; try discriminate; intros [|[]];
    congruence.
Qed.

Lemma in_legal_move_set_false (b : Board position) (m : Move) :
  in_legal_move_set b m = false -> m ∉ legal_moves (state b).
Proof.
  unfold in_legal_move_set. intros H.
  apply orb_false_iff in H as [H _].
  by apply bool_decide_eq_false_1 in H.
Qed.

Lemma candidate_move_squares (b : Board position) (data : MoveRequest) :
  from_square (candidate_move b data)
  = chess_square (from_col data) (7 - from_row data)
  /\ to_square (candidate_move b data)
     = chess_square (to_col data) (7 - to_row data).
Proof. unfold candidate_move. cbv zeta. by destruct (_ && _). Qed.

Lemma on_board_square_in_table (row col : Z) :
  on_board_square row col ->
  square_in_table (chess_square col (7 - row)) = true.
Proof.
  intros [Hr Hc]. unfold square_in_table, chess_square.
  apply andb_true_iff. split; [apply Z.leb_le|apply Z.ltb_lt]; lia.
Qed.

Lemma move_stack_push (b : Board position) (m : Move) :
  move_stack (push b m) = move_stack b ++ [m].
Proof. reflexivity. Qed.

Lemma length_move_stack (b : Board position) :
  length (move_stack b) = length (stack b).
Proof. unfold move_stack. by rewrite length_rev, length_map. Qed.

Lemma pop_push (b : Board position) (m : Move) :
  pop (push b m) = Some (m, b).
Proof. destruct b. reflexivity. Qed.

(** With two moves on the stack both calls of [board.pop()] return. *)
Lemma pop_twice (b : Board position) :
  (2 <= length (move_stack b))%nat ->
  exists ai_move player_move b1 b2 rest,
    pop b = Some (ai_move, b1) /\ pop b1 = Some (player_move, b2)
    /\ move_stack b = rest ++ [player_move; ai_move]
    /\ move_stack b2 = rest.
Proof.
  rewrite length_move_stack. destruct b as [st stk].
  destruct stk as [|[m1 p1] [|[m2 p2] stk]]; simpl; try lia.
  intros _. exists m1, m2. eexists. eexists. exists (rev (map fst stk)).
  repeat split. unfold move_stack. simpl. by rewrite <- app_assoc.
Qed.

(** The bookkeeping before a push appends exactly one symbol for a
    capturing move that starts on an occupied square. *)
Lemma track_capture_occupied (b : Board position) (m : Move)
    (l : list string) :
  piece_at (state b) (from_square m) <> None ->
  track_capture b m l
  = if is_capture (state b) m
    then l ++ [match captured_piece b m with
               | Some piece => symbol piece
               | None => ""
               end]
    else l.
Proof.
  intros H. unfold track_capture, captured_piece.
  destruct (is_capture (state b) m); [|done].
  destruct (piece_at (state b) (to_square m)); [done|].
  destruct (piece_at (state b) (from_square m)); [done|contradiction].
Qed.

(** With two moves on the stack [undo_move] reaches its last line. *)
Lemma undo_move_pops_two (games : gmap string (GameSession R))
    (cookie : option string) (game_id : string) (gs : GameSession R) :
  active_game games cookie = Some (game_id, gs) ->
  (2 <= length (move_stack (board gs)))%nat ->
  exists ai_move player_move b1 gs' rest,
    pop (board gs) = Some (ai_move, b1)
    /\ pop b1 = Some (player_move, board gs')
    /\ move_stack (board gs) = rest ++ [player_move; ai_move]
    /\ move_stack (board gs') = rest
    /\ undo_move games cookie
       = (<[game_id := gs']> games,
          GameStateResponse
            (game_state_to_dict (<[game_id := gs']> games) game_id))
    /\ Some (black (captured_pieces gs'))
       = (if is_capture (state b1) ai_move
          then pop_if_nonempty (black (captured_pieces gs))
          else Some (black (captured_pieces gs)))
    /\ Some (white (captured_pieces gs'))
       = (if is_capture (state (board gs')) player_move
          then pop_if_nonempty (white (captured_pieces gs))
          else Some (white (captured_pieces gs))).
Proof.
  intros Hactive Hge.
  destruct (pop_twice (board gs) Hge)
    as (ai_move & player_move & b1 & b2 & rest & Hp1 & Hp2 & Hst & Hst2).
  set (k' := if is_capture (state b1) ai_move
             then pop_if_nonempty (black (captured_pieces gs))
             else Some (black (captured_pieces gs))).
  set (w' := if is_capture (state b2) player_move
             then pop_if_nonempty (white (captured_pieces gs))
             else Some (white (captured_pieces gs))).
  assert (exists k, k' = Some k) as [k Hk].
  { subst k'. destruct (is_capture (state b1) ai_move);
      [apply pop_if_nonempty_total | eauto]. }
  assert (exists w, w' = Some w) as [w Hw].
  { subst w'. destruct (is_capture (state b2) player_move);
      [apply pop_if_nonempty_total | eauto]. }
  exists ai_move, player_move, b1,
    {| board := b2; captured_pieces := {| white := w; black := k |} |}, rest.
  simpl. fold k' w'. rewrite Hk, Hw.
  repeat split; try assumption.
  unfold undo_move. rewrite Hactive.
  destruct (Nat.leb_spec 2 (length (move_stack (board gs)))); [|lia].
  rewrite Hp1. fold k'. rewrite Hk, Hp2. fold w'. by rewrite Hw.
Qed.

End ServerFacts.

(** ** Rejection of illegal moves *)

(** C2, as amended: when a request names squares of the board and the
    candidate move built from it (promotion to a queen included) is not in
    the legal-move set of the session's position, [make_move] answers the
    failure [Invalid move] and returns the session dictionary as it was, so
    the position, the move stack and both capture lists of the session are
    those of before the call.  A request that names a square off the board
    is not answered with a failure when a lookup of the library leaves its
    tables (the origin index is outside -64..63, or the origin holds a piece
    and the destination index is outside -64..63): the request ends in an
    exception, and the dictionary is as it was then too. *)
Theorem illegal_move_rejected (R : Rules)
    (games : gmap string (GameSession R)) (cookie : option string)
    (data : MoveRequest) (engine_play : Board position -> Move)
    (game_id : string) (gs : GameSession R) :
  active_game games cookie = Some (game_id, gs) ->
  in_legal_move_set (board gs) (candidate_move (board gs) data) = false ->
  let from_sq := chess_square (from_col data) (7 - from_row data) in
  let to_sq := chess_square (to_col data) (7 - to_row data) in
  let raises :=
    square_in_table from_sq = false
    \/ (piece_at (state (board gs)) from_sq <> None
        /\ square_in_table to_sq = false) in
  (on_board_request data ->
   make_move games cookie data engine_play
   = (games, ErrorResponse "Invalid move"))
  /\ (raises ->
      make_move games cookie data engine_play = (games, InternalError))
  /\ (on_board_request data \/ raises ->
      fst (make_move games cookie data engine_play) !! game_id = Some gs).
Proof.
  intros Hactive Hillegal from_sq to_sq raises.
  apply in_legal_move_set_false in Hillegal.
  pose proof (active_game_inv _ _ _ _ Hactive) as (_ & _ & Hlook).
  destruct (legality_test_illegal _ _ Hillegal) as [Hnone Hcases].
  destruct (candidate_move_squares (board gs) data) as [Hfrom Hto].
  rewrite Hfrom, Hto in Hnone. fold from_sq to_sq raises in Hnone.
  unfold make_move. rewrite Hactive. cbv zeta.
  assert (on_board_request data -> ~ raises) as Hboard.
  { intros [H1 H2] [Hr|[_ Hr]].
    - unfold from_sq in Hr.
      by rewrite on_board_square_in_table in Hr.
    - unfold to_sq in Hr. by rewrite on_board_square_in_table in Hr. }
  destruct Hcases as [E|E]; rewrite E; cbn [fst].
  - assert (~ raises) as Hn by (intros Hr; apply Hnone in Hr; congruence).
    split; [reflexivity|]. split; [intros Hr; contradiction|].
    intros _. exact Hlook.
  - assert (raises) as Hr by (by apply Hnone).
    split; [intros Hb; by apply Hboard in Hb|].
    split; [reflexivity|]. intros _. exact Hlook.
Qed.

(** ** Undoing *)

(** X21: when [undo_move] refuses.  For a session that exists it answers
    the failure [Cannot undo] exactly when fewer than two moves are on the
    move stack, and then changes nothing; otherwise it pops the last move
    and then the move before it, stores the board without these two moves
    and answers with the snapshot.  Whose moves the two are is another
    matter: after a move of the player that ends the game the first of them
    is the player's. *)
Theorem undo_needs_two_moves (R : Rules)
    (games : gmap string (GameSession R)) (cookie : option string)
    (game_id : string) (gs : GameSession R) :
  active_game games cookie = Some (game_id, gs) ->
  (is_success (snd (undo_move games cookie)) = false
   <-> (length (move_stack (board gs)) < 2)%nat)
  /\ ((length (move_stack (board gs)) < 2)%nat ->
      undo_move games cookie = (games, ErrorResponse "Cannot undo"))
  /\ ((2 <= length (move_stack (board gs)))%nat ->
      exists ai_move player_move b1 gs' rest,
        pop (board gs) = Some (ai_move, b1)
        /\ pop b1 = Some (player_move, board gs')
        /\ move_stack (board gs) = rest ++ [player_move; ai_move]
        /\ move_stack (board gs') = rest
        /\ undo_move games cookie
           = (<[game_id := gs']> games,
              GameStateResponse
                (game_state_to_dict (<[game_id := gs']> games) game_id))).
Proof.
  intros Hactive.
  assert ((length (move_stack (board gs)) < 2)%nat ->
          undo_move games cookie = (games, ErrorResponse "Cannot undo"))
    as Hfew.
  { intros Hlt. unfold undo_move. rewrite Hactive.
    destruct (Nat.leb_spec 2 (length (move_stack (board gs)))); [lia|done]. }
  split; [|split; [assumption|]].
  - split.
    + intros Hfail.
      destruct (Nat.lt_ge_cases (length (move_stack (board gs))) 2)
        as [|Hge]; [assumption|].
      destruct (undo_move_pops_two games cookie game_id gs Hactive Hge)
        as (? & ? & ? & ? & ? & _ & _ & _ & _ & E & _).
      rewrite E in Hfail. discriminate.
    + intros Hlt. by rewrite (Hfew Hlt).
  - intros Hge.
    destruct (undo_move_pops_two games cookie game_id gs Hactive Hge)
      as (ai_move & player_move & b1 & gs' & rest & H1 & H2 & H3 & H4 & E & _).
    exists ai_move, player_move, b1, gs', rest. auto.
Qed.

(** C10: [undo_move] never ends in an exception, whatever the capture lists
    hold: each removal is guarded by an emptiness test.  With two moves on
    the stack it succeeds, a list changes only when the popped move was a
    capture, and a list that is already empty is left empty. *)
Theorem undo_survives_empty_capture_lists (R : Rules)
    (games : gmap string (GameSession R)) (cookie : option string)
    (game_id : string) (gs : GameSession R) :
  active_game games cookie = Some (game_id, gs) ->
  (2 <= length (move_stack (board gs)))%nat ->
  exists ai_move player_move b1 gs',
    pop (board gs) = Some (ai_move, b1)
    /\ pop b1 = Some (player_move, board gs')
    /\ undo_move games cookie
       = (<[game_id := gs']> games,
          GameStateResponse
            (game_state_to_dict (<[game_id := gs']> games) game_id))
    /\ Some (black (captured_pieces gs'))
       = (if is_capture (state b1) ai_move
          then pop_if_nonempty (black (captured_pieces gs))
          else Some (black (captured_pieces gs)))
    /\ Some (white (captured_pieces gs'))
       = (if is_capture (state (board gs')) player_move
          then pop_if_nonempty (white (captured_pieces gs))
          else Some (white (captured_pieces gs)))
    /\ (black (captured_pieces gs) = [] -> black (captured_pieces gs') = [])
    /\ (white (captured_pieces gs) = [] -> white (captured_pieces gs') = []).
Proof.
  intros Hactive Hge.
  destruct (undo_move_pops_two games cookie game_id gs Hactive Hge)
    as (ai_move & player_move & b1 & gs' & rest
        & H1 & H2 & _ & _ & E & Hk & Hw).
  exists ai_move, player_move, b1, gs'.
  repeat split; try assumption.
  - intros Hnil. rewrite Hnil in Hk.
    destruct (is_capture (state b1) ai_move); simpl in Hk; congruence.
  - intros Hnil. rewrite Hnil in Hw.
    destruct (is_capture (state (board gs')) player_move); simpl in Hw;
      congruence.
Qed.

(** ** Promotion *)

(** C6: the candidate move goes from the origin square of the request to
    its destination square; its promotion piece is a queen exactly when a
    pawn stands on the origin square and the destination square is on rank
    0 or rank 7, and there is no promotion piece otherwise.  This candidate
    is the move [make_move] looks up among the legal moves. *)
Theorem candidate_promotes_to_queen_only (R : Rules)
    (b : Board position) (data : MoveRequest) :
  let from_sq := chess_square (from_col data) (7 - from_row data) in
  let to_sq := chess_square (to_col data) (7 - to_row data) in
  let pawn_to_last_rank :=
    (exists piece, piece_at (state b) from_sq = Some piece
                   /\ piece_type piece = PAWN)
    /\ (square_rank to_sq = 0 \/ square_rank to_sq = 7) in
  from_square (candidate_move b data) = from_sq
  /\ to_square (candidate_move b data) = to_sq
  /\ (pawn_to_last_rank ->
      promotion (candidate_move b data) = Some QUEEN)
  /\ (~ pawn_to_last_rank -> promotion (candidate_move b data) = None)
  /\ (forall pt, promotion (candidate_move b data) = Some pt -> pt = QUEEN).
Proof.
  intros from_sq to_sq pawn_to_last_rank.
  unfold candidate_move. fold from_sq to_sq.
  destruct (piece_at (state b) from_sq) as [piece|] eqn:Hp.
  - destruct (bool_decide (piece_type piece = PAWN)) eqn:Hpawn.
    + apply bool_decide_eq_true_1 in Hpawn.
      destruct (square_rank to_sq =? 0) eqn:H0;
        [|destruct (square_rank to_sq =? 7) eqn:H7]; simpl.
      * apply Z.eqb_eq in H0. repeat split; try done.
        -- intros Hn. exfalso. apply Hn. split; eauto.
        -- intros pt [= <-]. reflexivity.
      * apply Z.eqb_eq in H7. repeat split; try done.
        -- intros Hn. exfalso. apply Hn. split; eauto.
        -- intros pt [= <-]. reflexivity.
      * apply Z.eqb_neq in H0, H7. repeat split; try done.
        intros [_ [?|?]]; contradiction.
    + apply bool_decide_eq_false_1 in Hpawn. simpl. repeat split; try done.
      intros [(pc & [= <-] & ?) _]. contradiction.
  - simpl. repeat split; try done.
    intros [(pc & ? & _) _]. discriminate.
Qed.

(** ** Snapshot queries *)

(** C9: [get_game_state_route] returns the session dictionary it was given:
    the boards, move stacks and capture lists of all sessions are unchanged.
    For an existing session the answer is the snapshot built by
    [game_state_to_dict], whose move history is recomputed on a temporary
    board, and a second query gives the same answer as the first. *)
Theorem snapshot_query_does_not_mutate (R : Rules)
    (games : gmap string (GameSession R)) (cookie : option string)
    (game_id : string) (gs : GameSession R) :
  active_game games cookie = Some (game_id, gs) ->
  get_game_state_route games cookie
  = (games, GameStateResponse (game_state_to_dict games game_id))
  /\ fst (get_game_state_route games cookie) !! game_id = Some gs
  /\ get_game_state_route (fst (get_game_state_route games cookie)) cookie
     = get_game_state_route games cookie
  /\ (exists st, game_state_to_dict games game_id = Some st
                 /\ gs_move_history st
                    = replay_san new_board (move_stack (board gs))
                 /\ gs_captured_pieces st = captured_pieces gs).
Proof.
  intros Hactive.
  assert (get_game_state_route games cookie
          = (games, GameStateResponse (game_state_to_dict games game_id)))
    as E by (unfold get_game_state_route; by rewrite Hactive).
  apply active_game_inv in Hactive as (_ & _ & Hlook).
  rewrite E. simpl. repeat split; try assumption.
  unfold game_state_to_dict. rewrite Hlook. eauto.
Qed.

(** C3: when [make_move] has played the player's move and the engine's
    reply, the [undo_move] that follows gives back the session dictionary of
    before the move, so its answer is the snapshot of that state: same board
    grid, same capture lists, same side to move.  The rules library is
    assumed to give legal moves that start on an occupied square, and the
    engine to answer with a legal move. *)
Theorem undo_restores_exchange (R : Rules)
    (games : gmap string (GameSession R)) (cookie : option string)
    (data : MoveRequest) (engine_play : Board position -> Move)
    (game_id : string) (gs : GameSession R) :
  origin_occupied R ->
  active_game games cookie = Some (game_id, gs) ->
  ai_replied (snd (make_move games cookie data engine_play)) = true ->
  engine_play (push (board gs) (candidate_move (board gs) data))
    ∈ legal_moves (apply_move (state (board gs))
                     (candidate_move (board gs) data)) ->
  undo_move (fst (make_move games cookie data engine_play)) cookie
  = (games, GameStateResponse (game_state_to_dict games game_id))
  /\ exists before,
       game_state_to_dict games game_id = Some before
       /\ gs_board before = board_to_2d_array (board gs)
       /\ gs_captured_pieces before = captured_pieces gs
       /\ gs_current_player before
          = (if turn (state (board gs)) then "white" else "black").
Proof.
  intros Hlaw Hactive Hmove Hreply.
  pose proof (active_game_inv _ _ _ _ Hactive) as (_ & _ & Hlook).
  split.
  2:{ unfold game_state_to_dict. rewrite Hlook. eauto. }
  unfold make_move in *. rewrite Hactive in *.
  set (move := candidate_move (board gs) data) in *.
  destruct (legality_test (board gs) move) as [[|]|] eqn:Hlegal;
    [|discriminate|discriminate].
  apply legality_test_true in Hlegal.
  destruct (is_game_over (push (board gs) move)); simpl in Hmove;
    [discriminate|].
  clear Hmove. cbn [negb fst].
  set (b1 := push (board gs) move) in *.
  set (ai_move := engine_play b1) in *.
  rewrite (track_capture_occupied (board gs) move) by (by apply Hlaw).
  rewrite (track_capture_occupied b1 ai_move) by (by apply Hlaw).
  unfold undo_move.
  erewrite active_game_insert by exact Hactive.
  cbn [board captured_pieces white black].
  rewrite length_move_stack. cbn [push stack length Nat.leb].
  rewrite pop_push. fold b1. cbn [state push].
  destruct gs as [[p stk] [w k]].
  cbn [board captured_pieces white black state stack] in *.
  assert (pop b1 = Some (move, {| state := p; stack := stk |})) as ->
    by reflexivity.
  cbn [state].
  assert (forall (c : bool) (l : list string) (x : string),
             (if c then pop_if_nonempty (if c then l ++ [x] else l)
              else Some (if c then l ++ [x] else l)) = Some l) as Hround.
  { intros [] l x; [apply pop_if_nonempty_snoc | reflexivity]. }
  change (apply_move p move) with (state b1).
  rewrite !Hround.
  rewrite insert_insert_eq.
  rewrite (insert_id games game_id) by exact Hlook.
  reflexivity.
Qed.

(** A push adds one to the count exactly for a capturing move. *)
Lemma captures_on_stack_push {R : Rules} (b : Board position) (m : Move) :
  captures_on_stack (push b m)
  = ((if is_capture (state b) m then 1 else 0) + captures_on_stack b)%nat.
Proof.
  unfold captures_on_stack, push. cbn [stack].
  rewrite filter_cons. cbn [fst snd].
  destruct (is_capture (state b) m); case_decide; try done.
Qed.


(** ** A new game *)

(** C5: [new_game] always succeeds, and when the starting position of the
    rules library is the standard arrangement with White to move, neither
    over nor in check, its snapshot shows the standard grid (row 0 is rank
    8, upper case is white), [white] as the current player, empty capture
    lists, an empty move history, no last move, and neither game over nor
    check. *)
Theorem new_game_snapshot (R : Rules)
    (games : gmap string (GameSession R)) (game_id : string) :
  (forall sq, 0 <= sq < 64 ->
              piece_at starting_position sq = standard_piece_at sq) ->
  turn starting_position = WHITE ->
  is_game_over new_board = false ->
  is_check starting_position = false ->
  exists games' st,
    new_game games game_id
    = (games', Some game_id, NewGameResponse game_id (Some st))
    /\ games' !! game_id
       = Some {| board := new_board;
                 captured_pieces := {| white := []; black := [] |} |}
    /\ gs_board st = standard_grid
    /\ gs_current_player st = "white"
    /\ gs_captured_pieces st = {| white := []; black := [] |}
    /\ gs_move_history st = []
    /\ gs_last_move st = None
    /\ gs_game_over st = false
    /\ gs_is_check st = false.
Proof.
  intros Hpieces Hturn Hover Hcheck.
  unfold new_game, game_state_to_dict.
  rewrite lookup_insert_eq.
  eexists. eexists. split; [reflexivity|].
  cbn [gs_board gs_current_player gs_captured_pieces gs_move_history
       gs_last_move gs_game_over gs_is_check board captured_pieces].
  rewrite lookup_insert_eq.
  unfold new_board in *. cbn [state].
  rewrite Hturn, Hover, Hcheck.
  repeat split.
  unfold board_to_2d_array, range8, chess_square.
  cbn [map state].
  rewrite !Hpieces by lia.
  reflexivity.
Qed.

(** ** Legal destinations *)

(** C7: for an existing session and a square of the board given by its row
    and column, [get_valid_moves] changes nothing and answers with a list
    that holds a pair [(r, c)] exactly when [(r, c)] are the row and column
    of the destination square of a legal move of the current position that
    starts on the given square.  When the rules library gives legal moves
    that start on an occupied square, the list is empty for an empty
    square. *)
Theorem valid_moves_are_legal_destinations (R : Rules)
    (games : gmap string (GameSession R)) (cookie : option string)
    (game_id : string) (gs : GameSession R) (row col : Z) :
  origin_occupied R ->
  on_board_square row col ->
  active_game games cookie = Some (game_id, gs) ->
  exists coords,
    get_valid_moves games cookie row col
    = (games, ValidMovesResponse coords)
    /\ (forall r c,
          (r, c) ∈ coords
          <-> exists m, m ∈ legal_moves (state (board gs))
                        /\ from_square m = chess_square col (7 - row)
                        /\ r = 7 - square_rank (to_square m)
                        /\ c = square_file (to_square m))
    /\ (piece_at (state (board gs)) (chess_square col (7 - row)) = None ->
        coords = []).
Proof.
  intros Hlaw _ Hactive.
  unfold get_valid_moves. rewrite Hactive.
  eexists. split; [reflexivity|]. split.
  - intros r c. rewrite list_elem_of_In, in_map_iff. split.
    + intros (m & [= <- <-] & Hin).
      rewrite <- list_elem_of_In, list_elem_of_filter in Hin.
      destruct Hin as [Hfrom Hin]. exists m. auto.
    + intros (m & Hin & Hfrom & -> & ->).
      exists m. split; [reflexivity|].
      rewrite <- list_elem_of_In, list_elem_of_filter. auto.
  - intros Hempty.
    assert (filter (fun move => from_square move = chess_square col (7 - row))
                   (legal_moves (state (board gs))) = []) as ->; [|done].
    apply elem_of_nil_inv. intros m Hin.
    apply list_elem_of_filter in Hin as [Hfrom Hin].
    apply Hlaw in Hin. rewrite Hfrom in Hin. contradiction.
Qed.

(** ** The rules of chess as an instance *)

(** The move generator finds the known numbers of lines of play of one, two
    and three moves from the starting position. *)
Example chess_perft :
  Chess.perft 1 Chess.starting_position = 20
  /\ Chess.perft 2 Chess.starting_position = 400
  /\ Chess.perft 3 Chess.starting_position = 8902.
Proof. vm_compute. auto. Qed.

(** In chess a legal move starts on an occupied square. *)
Lemma chess_origin_occupied : origin_occupied chess_rules.
Proof.
  intros p m Hin.
  change (m ∈ Chess.legal_moves p) in Hin.
  change (Chess.piece_at p (from_square m) <> None).
  unfold Chess.legal_moves in Hin.
  apply list_elem_of_filter in Hin as [_ Hin].
  apply list_elem_of_In, in_flat_map in Hin as (sq & _ & Hin).
  unfold Chess.moves_from in Hin.
  destruct (Chess.piece_at p sq) as [pc|] eqn:E; [|destruct Hin].
  destruct (eqb (color pc) (Chess.turn p)); [|destruct Hin].
  apply in_map_iff in Hin as (tp & <- & _). simpl. congruence.
Qed.

Lemma chess_all_squares (sq : Z) : 0 <= sq < 64 -> In sq Chess.all_squares.
Proof.
  intros H. unfold Chess.all_squares. apply in_map_iff.
  exists (Z.to_nat sq). split; [lia|]. apply in_seq. lia.
Qed.

(** The starting position of the module is the standard arrangement. *)
Lemma chess_starting_arrangement (sq : Z) :
  0 <= sq < 64 ->
  Chess.piece_at Chess.starting_position sq = standard_piece_at sq.
Proof.
  intros H.
  assert (forallb (fun s => bool_decide
                      (Chess.piece_at Chess.starting_position s
                       = standard_piece_at s)) Chess.all_squares = true)
    as Hall by (vm_compute; reflexivity).
  rewrite forallb_forall in Hall.
  eapply bool_decide_eq_true_1, Hall, chess_all_squares, H.
Qed.

(** ** Capture bookkeeping on real games *)

(** C1: the capture lists go out of step with the move stack.  After
    scholar's mate, whose last move is a capture by the player that the
    engine does not answer, [undo_move] pops that capture as if it were the
    engine's reply and looks at the empty [black] list: the symbol stays in
    the [white] list.  Every request of the run is accepted; at the end one
    symbol is recorded and no capturing move is on the stack. *)
Theorem undo_after_mating_capture_keeps_symbol :
  let r := run fresh_games client (scholars_mate ++ [UndoLastExchange]) in
  let final := the_session (fst r) "game" in
  forallb is_success (snd r) = true
  /\ has_session (fst r) "game" = true
  /\ length (move_stack (board final)) = 5%nat
  /\ captures_on_stack (board final) = 0%nat
  /\ captured_pieces final = {| white := ["p"]; black := [] |}
  /\ captured_total final = 1%nat.
Proof. vm_compute. repeat split. Qed.

(** Before the undo the lists agree with the stack: one capture, one
    symbol. *)
Lemma scholars_mate_counts :
  let r := run fresh_games client scholars_mate in
  let final := the_session (fst r) "game" in
  forallb is_success (snd r) = true
  /\ gs_move_history <$> game_state_to_dict (fst r) "game"
     = Some ["e4"; "e5"; "Bc4"; "Nc6"; "Qh5"; "Nf6"; "Qxf7#"]
  /\ gs_winner <$> game_state_to_dict (fst r) "game" = Some (Some "white")
  /\ captures_on_stack (board final) = 1%nat
  /\ captured_total final = 1%nat.
Proof. vm_compute. repeat split. Qed.

(** C4: [undo_move] does not always pop the automated reply first and the
    player's move second.  Scholar's mate ends with the player's capture on
    f7, which the engine does not answer ([ai_moved] is false).  The undo
    that follows succeeds; the move it pops first, under the comment
    "Undo AI move", is the player's move from h5 to f7, and the move it pops
    second, under "Undo Player move", is the engine's reply from g8 to f6
    of the exchange before.  Five moves are left and it is Black's turn. *)
Theorem undo_pops_player_move_as_reply :
  let r := run fresh_games client scholars_mate in
  let gs := the_session (fst r) "game" in
  forallb is_success (snd r) = true
  /\ candidate_move (board (the_session mate_in_one "game"))
       (request Sq.h5 Sq.f7) = plain_move Sq.h5 Sq.f7
  /\ ai_replied (List.last (snd r) InternalError) = false
  /\ move_stack (board gs)
     = [ plain_move Sq.e2 Sq.e4; plain_move Sq.e7 Sq.e5;
         plain_move Sq.f1 Sq.c4; plain_move Sq.b8 Sq.c6;
         plain_move Sq.d1 Sq.h5; plain_move Sq.g8 Sq.f6;
         plain_move Sq.h5 Sq.f7 ]
  /\ is_success (snd (undo_move (fst r) client)) = true
  /\ fst <$> pop (board gs) = Some (plain_move Sq.h5 Sq.f7)
  /\ (pop (board gs) ≫= fun mb => fst <$> pop (snd mb))
     = Some (plain_move Sq.g8 Sq.f6)
  /\ length (move_stack
               (board (the_session (fst (undo_move (fst r) client)) "game")))
     = 5%nat
  /\ turn (state
             (board (the_session (fst (undo_move (fst r) client)) "game")))
     = BLACK.
Proof. vm_compute. repeat split. Qed.

(** C8: an en-passant capture records the capturing pawn.  After 1. e4 a6
    2. e5 d5 the move of the pawn from e5 to d6 is legal and captures; the
    pawn it takes off the board is the black pawn on d5, whose symbol is
    [p]; the symbol appended to the [white] list is [P], read from the
    origin square because the destination square is empty. *)
Theorem en_passant_records_the_capturing_pawn :
  let before :=
    the_session (fst (run fresh_games client en_passant_opening)) "game" in
  let r := run fresh_games client
             (en_passant_opening ++ [exchange Sq.e5 Sq.d6 Sq.a6 Sq.a5]) in
  let after := the_session (fst r) "game" in
  let move := candidate_move (board before) (request Sq.e5 Sq.d6) in
  forallb is_success (snd r) = true
  /\ move = plain_move Sq.e5 Sq.d6
  /\ bool_decide (move ∈ legal_moves (state (board before))) = true
  /\ is_capture (state (board before)) move = true
  /\ piece_at (state (board before)) Sq.d6 = None
  /\ symbol <$> piece_at (state (board before)) Sq.d5 = Some "p"
  /\ piece_at (apply_move (state (board before)) move) Sq.d5 = None
  /\ captured_pieces before = {| white := []; black := [] |}
  /\ captured_pieces after = {| white := ["P"]; black := [] |}.
Proof. vm_compute. repeat split. Qed.

(** After a mate by the player and an undo it is Black's turn, the player
    moves the black pieces and the engine the white ones, and the lists
    follow the roles: a capture by the white pawn is put in the [black]
    list and the answer of the black pawn in the [white] list. *)
Lemma captures_follow_roles_after_undo :
  let r := run fresh_games client
             (quick_mate ++ [UndoLastExchange;
                             exchange Sq.e7 Sq.e5 Sq.d4 Sq.e5;
                             exchange Sq.f6 Sq.e5 Sq.d1 Sq.h5]) in
  let final := the_session (fst r) "game" in
  forallb is_success (snd r) = true
  /\ gs_move_history <$> game_state_to_dict (fst r) "game"
     = Some ["e4"; "f6"; "d4"; "e5"; "dxe5"; "fxe5"; "Qh5+"]
  /\ captured_pieces final = {| white := ["P"]; black := ["p"] |}.
Proof. vm_compute. repeat split. Qed.

(** ** The theorems at work on the starting position *)

(** A pawn that goes three ranks forward from its starting square is
    rejected and the new game is as before. *)
Lemma illegal_move_rejected_witness :
  make_move fresh_games client (request Sq.e2 Sq.e5)
    (fun _ => plain_move Sq.e7 Sq.e5)
  = (fresh_games, ErrorResponse "Invalid move").
Proof.
  destruct (illegal_move_rejected chess_rules fresh_games client
              (request Sq.e2 Sq.e5) (fun _ => plain_move Sq.e7 Sq.e5)
              "game" (the_session fresh_games "game"))
    as (Hboard & _ & _).
  - apply active_game_the_session; vm_compute; reflexivity.
  - vm_compute. reflexivity.
  - apply Hboard. vm_compute. repeat split; discriminate.
Defined.

(** C2 as the claim states it fails: in a new game the request from row 6,
    column 4 (the pawn on e2) to row -1, column 4 builds the move from
    square 12 to square 68.  The move is not among the legal moves, and the
    request does not end in a failure response: the legality test looks the
    destination up outside the library's tables and raises. *)
Lemma off_board_destination_raises :
  let data :=
    {| from_row := 6; from_col := 4; to_row := -1; to_col := 4 |} in
  let b := board (the_session fresh_games "game") in
  has_session fresh_games "game" = true
  /\ candidate_move b data
     = {| from_square := 12; to_square := 68; promotion := None |}
  /\ bool_decide (candidate_move b data ∈ legal_moves (state b)) = false
  /\ in_legal_move_set b (candidate_move b data) = false
  /\ snd (make_move fresh_games client data
            (fun _ => plain_move Sq.e7 Sq.e5)) = InternalError
  /\ (forall e,
        snd (make_move fresh_games client data
               (fun _ => plain_move Sq.e7 Sq.e5)) <> ErrorResponse e).
Proof.
  intros data b.
  assert (snd (make_move fresh_games client data
                 (fun _ => plain_move Sq.e7 Sq.e5)) = InternalError) as E
    by (vm_compute; reflexivity).
  split; [vm_compute; reflexivity|].
  split; [vm_compute; reflexivity|].
  split; [vm_compute; reflexivity|].
  split; [vm_compute; reflexivity|].
  split; [exact E|].
  intros e. rewrite E. discriminate.
Qed.

(** The legal-move set is more than the generated list: when White can
    castle on the king's side, the move of the king from e1 to h1, the
    square of its rook, is read as the castling move from e1 to g1 and is in
    the set, and the generator does not yield it. *)
Lemma castling_written_as_king_to_rook :
  let r := run fresh_games client italian_opening in
  let b := board (the_session (fst r) "game") in
  let move := candidate_move b (request (chess_square 4 0) (chess_square 7 0)) in
  forallb is_success (snd r) = true
  /\ move = plain_move 4 7
  /\ from_chess960 (state b) move = plain_move 4 6
  /\ bool_decide (move ∈ legal_moves (state b)) = false
  /\ in_legal_move_set b move = true.
Proof. vm_compute. repeat split. Qed.

(** 1. e4 e5 and an undo give back the new game. *)
Lemma undo_restores_exchange_witness :
  undo_move
    (fst (make_move fresh_games client (request Sq.e2 Sq.e4)
            (fun _ => plain_move Sq.e7 Sq.e5))) client
  = (fresh_games, GameStateResponse (game_state_to_dict fresh_games "game")).
Proof.
  apply (undo_restores_exchange chess_rules fresh_games client
           (request Sq.e2 Sq.e4) (fun _ => plain_move Sq.e7 Sq.e5)
           "game" (the_session fresh_games "game")).
  - exact chess_origin_occupied.
  - apply active_game_the_session; vm_compute; reflexivity.
  - vm_compute. reflexivity.
  - refine (bool_decide_eq_true_1 _ _). vm_compute. reflexivity.
Defined.

(** Nothing can be undone in a new game. *)
Lemma undo_needs_two_moves_witness :
  undo_move fresh_games client = (fresh_games, ErrorResponse "Cannot undo").
Proof.
  destruct (undo_needs_two_moves chess_rules fresh_games client "game"
              (the_session fresh_games "game")) as (_ & Hfew & _).
  - apply active_game_the_session; vm_compute; reflexivity.
  - apply Hfew. vm_compute. lia.
Defined.

(** After scholar's mate the [black] list is empty and the move on top of
    the stack is a capture: the undo succeeds and the list stays empty. *)
Lemma undo_survives_empty_capture_lists_witness :
  exists gs',
    fst (undo_move (fst (run fresh_games client scholars_mate)) client)
      !! "game" = Some gs'
    /\ is_success
         (snd (undo_move (fst (run fresh_games client scholars_mate)) client))
       = true
    /\ black (captured_pieces gs') = [].
Proof.
  destruct (undo_survives_empty_capture_lists chess_rules
              (fst (run fresh_games client scholars_mate)) client "game"
              (the_session (fst (run fresh_games client scholars_mate))
                 "game"))
    as (ai_move & player_move & b1 & gs' & _ & _ & E & _ & _ & Hblack & _).
  - apply active_game_the_session; vm_compute; reflexivity.
  - vm_compute. lia.
  - exists gs'. rewrite E. cbn [fst snd is_success].
    split; [apply lookup_insert_eq|]. split; [reflexivity|].
    apply Hblack. vm_compute. reflexivity.
Defined.

(** The snapshot of a new game under the rules of chess. *)
Lemma new_game_snapshot_witness :
  exists st,
    snd (new_game (R := chess_rules) ∅ "game")
    = NewGameResponse "game" (Some st)
    /\ gs_board st = standard_grid
    /\ gs_current_player st = "white"
    /\ gs_game_over st = false
    /\ gs_is_check st = false.
Proof.
  destruct (new_game_snapshot chess_rules ∅ "game")
    as (games' & st & E & _ & Hgrid & Hplayer & _ & _ & _ & Hover & Hcheck).
  - exact chess_starting_arrangement.
  - reflexivity.
  - vm_compute. reflexivity.
  - vm_compute. reflexivity.
  - exists st. rewrite E. auto.
Defined.

(** No destination is offered for the empty square e4 of a new game. *)
Lemma valid_moves_are_legal_destinations_witness :
  snd (get_valid_moves fresh_games client 4 4) = ValidMovesResponse [].
Proof.
  destruct (valid_moves_are_legal_destinations chess_rules fresh_games client
              "game" (the_session fresh_games "game") 4 4)
    as (coords & E & _ & Hempty).
  - exact chess_origin_occupied.
  - vm_compute. repeat split; discriminate.
  - apply active_game_the_session; vm_compute; reflexivity.
  - rewrite E, Hempty; [reflexivity|]. vm_compute. reflexivity.
Defined.

(** A query of the new game returns the dictionary it was given. *)
Lemma snapshot_query_does_not_mutate_witness :
  get_game_state_route fresh_games client
  = (fresh_games, GameStateResponse (game_state_to_dict fresh_games "game")).
Proof.
  apply (snapshot_query_does_not_mutate chess_rules fresh_games client
           "game" (the_session fresh_games "game")).
  apply active_game_the_session; vm_compute; reflexivity.
Defined.

(** * More of the server *)

(** ** Requests without a session *)

(** X1: a request whose cookie holds no game identifier, the empty
    identifier, or an identifier that is not in the dictionary is answered
    with [No active game] by [make_move], [get_valid_moves], [undo_move] and
    [get_game_state_route], and the dictionary is returned unchanged. *)
Theorem no_active_game (R : Rules)
    (games : gmap string (GameSession R)) (cookie : option string)
    (data : MoveRequest) (engine_play : Board position -> Move)
    (row col : Z) :
  cookie = None \/ cookie = Some ""
  \/ (exists game_id, cookie = Some game_id /\ games !! game_id = None) ->
  make_move games cookie data engine_play
  = (games, ErrorResponse "No active game")
  /\ get_valid_moves games cookie row col
     = (games, ErrorResponse "No active game")
  /\ undo_move games cookie = (games, ErrorResponse "No active game")
  /\ get_game_state_route games cookie
     = (games, ErrorResponse "No active game").
Proof.
  intros H.
  assert (active_game games cookie = None) as E.
  { unfold active_game.
    destruct H as [-> | [-> | (g & -> & Hg)]]; try reflexivity.
    destruct (decide (g = "")); [reflexivity|]. by rewrite Hg. }
  unfold make_move, get_valid_moves, undo_move, get_game_state_route.
  rewrite E. auto.
Qed.

(** The empty identifier is refused even when a session is stored under
    it. *)
Lemma no_active_game_witness :
  has_session (fst (fst (new_game (R := chess_rules) ∅ ""))) "" = true
  /\ undo_move (fst (fst (new_game (R := chess_rules) ∅ ""))) (Some "")
     = (fst (fst (new_game ∅ "")), ErrorResponse "No active game").
Proof.
  split; [vm_compute; reflexivity|].
  apply (no_active_game chess_rules (fst (fst (new_game ∅ ""))) (Some "")
           (request 0 0) (fun _ => plain_move 0 0) 0 0).
  right. left. reflexivity.
Defined.

(** ** Sessions of other clients *)

(** X2: [make_move] and [undo_move] touch no session but the one of the
    cookie, and [new_game] none but the one of the new identifier: every
    other entry of the dictionary is as before. *)
Theorem other_sessions_untouched (R : Rules)
    (games : gmap string (GameSession R)) (cookie : option string)
    (data : MoveRequest) (engine_play : Board position -> Move)
    (game_id other : string) :
  cookie <> Some other ->
  game_id <> other ->
  fst (make_move games cookie data engine_play) !! other = games !! other
  /\ fst (undo_move games cookie) !! other = games !! other
  /\ fst (fst (new_game games game_id)) !! other = games !! other.
Proof.
  intros Hc Hn. repeat split.
  - unfold make_move.
    destruct (active_game games cookie) as [[g gs]|] eqn:E; [|done].
    apply active_game_inv in E as (-> & _ & _).
    assert (g <> other) by congruence.
    repeat case_match; simpl; by rewrite ?lookup_insert_ne.
  - unfold undo_move.
    destruct (active_game games cookie) as [[g gs]|] eqn:E; [|done].
    apply active_game_inv in E as (-> & _ & _).
    assert (g <> other) by congruence.
    repeat case_match; simpl; by rewrite ?lookup_insert_ne.
  - unfold new_game. simpl. by rewrite lookup_insert_ne.
Qed.

(** A second client's new game and moves leave the first game alone. *)
Lemma other_sessions_untouched_witness :
  fst (make_move (fst (fst (new_game fresh_games "second"))) (Some "second")
         (request Sq.e2 Sq.e4) (fun _ => plain_move Sq.e7 Sq.e5)) !! "game"
  = fst (fst (new_game fresh_games "second")) !! "game".
Proof.
  apply (other_sessions_untouched chess_rules
           (fst (fst (new_game fresh_games "second"))) (Some "second")
           (request Sq.e2 Sq.e4) (fun _ => plain_move Sq.e7 Sq.e5)
           "second" "game"); discriminate.
Defined.

(** X3: no route removes a session: an identifier that is in the dictionary
    before a call of [new_game], [make_move], [get_valid_moves], [undo_move]
    or [get_game_state_route] is in the dictionary after it. *)
Theorem sessions_are_never_removed (R : Rules)
    (games : gmap string (GameSession R)) (cookie : option string)
    (data : MoveRequest) (engine_play : Board position -> Move)
    (row col : Z) (game_id kept : string) :
  is_Some (games !! kept) ->
  is_Some (fst (fst (new_game games game_id)) !! kept)
  /\ is_Some (fst (make_move games cookie data engine_play) !! kept)
  /\ is_Some (fst (get_valid_moves games cookie row col) !! kept)
  /\ is_Some (fst (undo_move games cookie) !! kept)
  /\ is_Some (fst (get_game_state_route games cookie) !! kept).
Proof.
  intros Hk.
  assert (forall g (s : GameSession R), is_Some (<[g := s]> games !! kept))
    as Hins.
  { intros g s. rewrite lookup_insert. case_decide; eauto. }
  repeat split.
  - apply Hins.
  - unfold make_move. repeat case_match; simpl; auto.
  - unfold get_valid_moves. repeat case_match; simpl; auto.
  - unfold undo_move. repeat case_match; simpl; auto.
  - unfold get_game_state_route. repeat case_match; simpl; auto.
Qed.

(** The first game is still there after an exchange and an undo. *)
Lemma sessions_are_never_removed_witness :
  is_Some (fst (undo_move fresh_games client) !! "game").
Proof.
  apply (sessions_are_never_removed chess_rules fresh_games client
           (request Sq.e2 Sq.e4) (fun _ => plain_move Sq.e7 Sq.e5) 0 0
           "other" "game").
  unfold fresh_games, new_game. cbn [fst]. rewrite lookup_insert_eq. eauto.
Defined.

(** ** Rows, columns and squares *)

Lemma square_file_chess_square (file rank : Z) :
  0 <= file < 8 -> square_file (chess_square file rank) = file.
Proof.
  intros H. unfold square_file, chess_square.
  change 7 with (Z.ones 3). rewrite Z.land_ones by lia.
  change (2 ^ 3) with 8.
  rewrite Z.add_comm, Z_mod_plus_full. by apply Z.mod_small.
Qed.

Lemma square_rank_chess_square (file rank : Z) :
  0 <= file < 8 -> square_rank (chess_square file rank) = rank.
Proof.
  intros H. unfold square_rank, chess_square.
  rewrite Z.shiftr_div_pow2 by lia. change (2 ^ 3) with 8.
  rewrite Z.add_comm, Z.div_add by lia. rewrite Z.div_small by lia. lia.
Qed.

Lemma chess_square_file_rank (sq : Z) :
  chess_square (square_file sq) (square_rank sq) = sq.
Proof.
  unfold square_file, square_rank, chess_square.
  change 7 with (Z.ones 3). rewrite Z.land_ones by lia.
  rewrite Z.shiftr_div_pow2 by lia. change (2 ^ 3) with 8.
  pose proof (Z.div_mod sq 8). lia.
Qed.

(** X4: the two coordinate conversions of the program undo each other.  The
    square [chess.square(col, 7 - row)] that [make_move] and
    [get_valid_moves] build from a row and a column of the grid is turned
    back into that row and column by [7 - square_rank] and [square_file],
    the conversion of [get_last_move] and of the answer of
    [get_valid_moves]; and every square is rebuilt from the row and column
    reported for it.  The column has to be one of the eight files: column 8
    of row 7 is read as the square a2. *)
Theorem grid_coordinates_round_trip (row col : Z) :
  0 <= col < 8 ->
  7 - square_rank (chess_square col (7 - row)) = row
  /\ square_file (chess_square col (7 - row)) = col
  /\ (forall sq,
        chess_square (square_file sq) (7 - (7 - square_rank sq)) = sq)
  /\ chess_square 8 (7 - 7) = chess_square 0 (7 - 6).
Proof.
  intros H. repeat split.
  - rewrite square_rank_chess_square by exact H. lia.
  - by apply square_file_chess_square.
  - intros sq. replace (7 - (7 - square_rank sq)) with (square_rank sq) by lia.
    apply chess_square_file_rank.
Qed.

Lemma grid_coordinates_round_trip_witness :
  7 - square_rank (chess_square 4 (7 - 6)) = 6
  /\ square_file (chess_square 4 (7 - 6)) = 4.
Proof.
  destruct (grid_coordinates_round_trip 6 4) as (H1 & H2 & _); [lia|].
  split; assumption.
Defined.

(** ** Accepted moves *)

(** X5: a request of an existing session whose candidate move is legal is
    always accepted, also when the game is already over.  The move is pushed
    on the board; the engine's reply is pushed after it exactly when the
    game is not over after the player's move, and [ai_moved] says so.  The
    [white] list is extended by at most one symbol, the [black] list too and
    only when the engine has moved. *)
Theorem legal_move_is_played (R : Rules)
    (games : gmap string (GameSession R)) (cookie : option string)
    (data : MoveRequest) (engine_play : Board position -> Move)
    (game_id : string) (gs : GameSession R) :
  active_game games cookie = Some (game_id, gs) ->
  candidate_move (board gs) data ∈ legal_moves (state (board gs)) ->
  let move := candidate_move (board gs) data in
  let b1 := push (board gs) move in
  let over := is_game_over b1 in
  exists gs',
    make_move games cookie data engine_play
    = (<[game_id := gs']> games,
       MoveResponse (game_state_to_dict (<[game_id := gs']> games) game_id)
         (negb over))
    /\ board gs' = (if over then b1 else push b1 (engine_play b1))
    /\ move_stack (board gs')
       = move_stack (board gs)
         ++ move :: (if over then [] else [engine_play b1])
    /\ (exists w, white (captured_pieces gs')
                  = white (captured_pieces gs) ++ w /\ (length w <= 1)%nat)
    /\ (exists k, black (captured_pieces gs')
                  = black (captured_pieces gs) ++ k /\ (length k <= 1)%nat
                  /\ (over = true -> k = [])).
Proof.
  intros Hactive Hlegal move b1 over.
  assert (forall b m l, exists w,
             track_capture b m l = l ++ w /\ (length w <= 1)%nat) as Htrack.
  { intros b m l. unfold track_capture.
    destruct (is_capture (state b) m);
      [destruct (captured_piece b m)|].
    - eexists. split; [reflexivity|simpl; lia].
    - exists []. rewrite app_nil_r. split; [done|simpl; lia].
    - exists []. rewrite app_nil_r. split; [done|simpl; lia]. }
  unfold make_move. rewrite Hactive. fold move.
  rewrite legality_test_legal by exact Hlegal. fold b1. fold over.
  destruct over eqn:Hover; cbn [negb].
  - eexists. split; [reflexivity|]. cbn [board captured_pieces white black].
    split; [reflexivity|]. split; [reflexivity|].
    split; [apply Htrack|].
    exists []. rewrite app_nil_r. auto.
  - eexists. split; [reflexivity|]. cbn [board captured_pieces white black].
    split; [reflexivity|]. split.
    { subst b1. rewrite !move_stack_push. by rewrite <- app_assoc. }
    split; [apply Htrack|].
    destruct (Htrack b1 (engine_play b1) (black (captured_pieces gs)))
      as (k & -> & Hk).
    exists k. split; [reflexivity|]. split; [assumption|discriminate].
Qed.

(** 1. e4 is played in the new game and answered. *)
Lemma legal_move_is_played_witness :
  exists gs',
    make_move fresh_games client (request Sq.e2 Sq.e4)
      (fun _ => plain_move Sq.e7 Sq.e5)
    = (<["game" := gs']> fresh_games,
       MoveResponse
         (game_state_to_dict (<["game" := gs']> fresh_games) "game") true)
    /\ length (move_stack (board gs')) = 2%nat.
Proof.
  destruct (legal_move_is_played chess_rules fresh_games client
              (request Sq.e2 Sq.e4) (fun _ => plain_move Sq.e7 Sq.e5)
              "game" (the_session fresh_games "game"))
    as (gs' & E & _ & Hstack & _).
  - apply active_game_the_session; vm_compute; reflexivity.
  - refine (bool_decide_eq_true_1 _ _). vm_compute. reflexivity.
  - exists gs'. split.
    + rewrite E.
      match goal with
      | |- context [negb ?x] =>
          assert (negb x = true) as -> by (vm_compute; reflexivity)
      end.
      reflexivity.
    + rewrite Hstack. vm_compute. reflexivity.
Defined.

(** ** Offered and accepted destinations *)

(** X7: a destination on offer is accepted.  When the legal moves of the
    position come with the promotion [make_move] builds, every pair of row
    and column that [get_valid_moves] returns for a square gives, sent back
    with that square as the origin, a request that [make_move] accepts. *)
Theorem offered_move_is_accepted (R : Rules)
    (games : gmap string (GameSession R)) (cookie : option string)
    (engine_play : Board position -> Move)
    (game_id : string) (gs : GameSession R)
    (row col r c : Z) (coords : list (Z * Z)) :
  active_game games cookie = Some (game_id, gs) ->
  queen_promotion_listed (state (board gs)) ->
  get_valid_moves games cookie row col = (games, ValidMovesResponse coords) ->
  (r, c) ∈ coords ->
  is_success
    (snd (make_move games cookie
            {| from_row := row; from_col := col; to_row := r; to_col := c |}
            engine_play)) = true.
Proof.
  intros Hactive Hprom Hvalid Hin.
  unfold get_valid_moves in Hvalid. rewrite Hactive in Hvalid.
  injection Hvalid as <-.
  apply list_elem_of_In, in_map_iff in Hin as (m & [= <- <-] & Hin).
  apply list_elem_of_In, list_elem_of_filter in Hin as [Hfrom Hlegal].
  assert (candidate_move (board gs)
            {| from_row := row; from_col := col;
               to_row := 7 - square_rank (to_square m);
               to_col := square_file (to_square m) |}
            ∈ legal_moves (state (board gs))) as Hcand.
  { unfold candidate_move. cbn [from_row from_col to_row to_col].
    replace (7 - (7 - square_rank (to_square m)))
      with (square_rank (to_square m)) by lia.
    rewrite chess_square_file_rank, <- Hfrom.
    specialize (Hprom m Hlegal).
    destruct (match piece_at (state (board gs)) (from_square m) with
              | Some piece => bool_decide (piece_type piece = PAWN)
              | None => false
              end
              && ((square_rank (to_square m) =? 0)
                  || (square_rank (to_square m) =? 7))); exact Hprom. }
  unfold make_move. rewrite Hactive.
  rewrite legality_test_legal by exact Hcand.
  by case_match.
Qed.

(** The test decides [queen_promotion_listed]. *)
Lemma queen_promotion_listedb_true (R : Rules) (p : position) :
  queen_promotion_listedb p = true -> queen_promotion_listed p.
Proof.
  unfold queen_promotion_listedb. cbv zeta.
  intros H m Hm. rewrite forallb_forall in H.
  apply list_elem_of_In, H in Hm. by apply bool_decide_eq_true_1 in Hm.
Qed.

(** The pawn on h7 is offered g8 once for each of the four promotions, and
    the capture on g8 is accepted: it promotes to a queen. *)
Lemma offered_move_is_accepted_witness :
  get_valid_moves (fst (run fresh_games client promotion_opening)) client 1 7
  = (fst (run fresh_games client promotion_opening),
     ValidMovesResponse [(0, 6); (0, 6); (0, 6); (0, 6)])
  /\ is_success
       (snd (make_move (fst (run fresh_games client promotion_opening)) client
               {| from_row := 1; from_col := 7; to_row := 0; to_col := 6 |}
               (fun _ => plain_move Sq.a5 (chess_square 0 3)))) = true.
Proof.
  assert (get_valid_moves (fst (run fresh_games client promotion_opening))
            client 1 7
          = (fst (run fresh_games client promotion_opening),
             ValidMovesResponse [(0, 6); (0, 6); (0, 6); (0, 6)])) as E.
  { unfold get_valid_moves.
    rewrite (active_game_the_session _ "game")
      by (vm_compute; reflexivity).
    match goal with
    | |- (_, ValidMovesResponse ?l) = _ =>
        assert (l = [(0, 6); (0, 6); (0, 6); (0, 6)]) as ->
          by (vm_compute; reflexivity)
    end.
    reflexivity. }
  split; [exact E|].
  apply (offered_move_is_accepted chess_rules
           (fst (run fresh_games client promotion_opening)) client
           (fun _ => plain_move Sq.a5 (chess_square 0 3)) "game"
           (the_session (fst (run fresh_games client promotion_opening))
              "game")
           1 7 0 6 [(0, 6); (0, 6); (0, 6); (0, 6)]).
  - apply active_game_the_session; vm_compute; reflexivity.
  - apply queen_promotion_listedb_true. vm_compute. reflexivity.
  - exact E.
  - left.
Defined.

(** ** What every reachable session satisfies *)

Section ReachableFacts.
Context {R : Rules}.

Lemma has_session_lookup (games : gmap string (GameSession R))
    (game_id : string) :
  has_session games game_id = true ->
  games !! game_id = Some (the_session games game_id).
Proof.
  unfold has_session, the_session.
  destruct (games !! game_id); [reflexivity|discriminate].
Qed.

(** A run whose replies pass the test leads from reachable to reachable. *)
Lemma reachable_run (games : gmap string (GameSession R))
    (cookie : option string) (ops : list Operation) :
  reachable R games ->
  replies_legal games cookie ops = true ->
  reachable R (fst (run games cookie ops)).
Proof.
  revert games. induction ops as [|op rest IH]; intros games Hr Hl.
  - exact Hr.
  - cbn [run fst]. cbn [replies_legal] in Hl.
    apply andb_true_iff in Hl as [Hop Hrest].
    apply IH; [|exact Hrest].
    destruct op as [data reply|]; cbn [perform].
    + apply reachable_make_move; [exact Hr|].
      intros game_id gs Hactive Hlegal Hover.
      unfold reply_legalb in Hop. rewrite Hactive in Hop.
      cbv zeta in Hop. rewrite Hover in Hop.
      by apply bool_decide_eq_true_1 in Hop.
    + by apply reachable_undo_move.
Qed.

Lemma played_pop (b b1 : Board position) (m : Move) :
  played b -> pop b = Some (m, b1) ->
  played b1 /\ m ∈ legal_moves (state b1) /\ b = push b1 m.
Proof.
  intros Hp Hpop. destruct Hp as [|b0 m0 Hp0 Hl0].
  - discriminate.
  - rewrite pop_push in Hpop. injection Hpop as <- <-. auto.
Qed.

(** The four changes a session undergoes: the player's move and the
    engine's reply in [make_move], the two pops of [undo_move].  A property
    of sessions that holds for a new session and survives each of them holds
    for every session of a reachable dictionary. *)
Lemma reachable_sessions_ind (P : GameSession R -> Prop) :
  P {| board := new_board;
       captured_pieces := {| white := []; black := [] |} |} ->
  (forall gs m,
      P gs -> played (board gs) -> m ∈ legal_moves (state (board gs)) ->
      P {| board := push (board gs) m;
           captured_pieces :=
             {| white := track_capture (board gs) m
                           (white (captured_pieces gs));
                black := black (captured_pieces gs) |} |}) ->
  (forall gs m,
      P gs -> played (board gs) -> m ∈ legal_moves (state (board gs)) ->
      P {| board := push (board gs) m;
           captured_pieces :=
             {| white := white (captured_pieces gs);
                black := track_capture (board gs) m
                           (black (captured_pieces gs)) |} |}) ->
  (forall gs m b1 k,
      P gs -> played (board gs) -> pop (board gs) = Some (m, b1) ->
      (if is_capture (state b1) m
       then pop_if_nonempty (black (captured_pieces gs))
       else Some (black (captured_pieces gs))) = Some k ->
      P {| board := b1;
           captured_pieces :=
             {| white := white (captured_pieces gs); black := k |} |}) ->
  (forall gs m b1 w,
      P gs -> played (board gs) -> pop (board gs) = Some (m, b1) ->
      (if is_capture (state b1) m
       then pop_if_nonempty (white (captured_pieces gs))
       else Some (white (captured_pieces gs))) = Some w ->
      P {| board := b1;
           captured_pieces :=
             {| white := w; black := black (captured_pieces gs) |} |}) ->
  forall games, reachable R games ->
  forall game_id gs, games !! game_id = Some gs ->
                     P gs /\ played (board gs).
Proof.
  intros Hnew Hplayer Hengine Hpop1 Hpop2 games Hr.
  induction Hr as [|games new_id Hr IH|games cookie data engine_play Hr IH Hreply
                  |games cookie Hr IH]; intros game_id gs Hlook.
  - by rewrite lookup_empty in Hlook.
  - unfold new_game in Hlook. cbn [fst] in Hlook.
    rewrite lookup_insert in Hlook. case_decide.
    + injection Hlook as <-. split; [exact Hnew|constructor].
    + by apply IH in Hlook.
  - unfold make_move in Hlook.
    destruct (active_game games cookie) as [[g gs0]|] eqn:Hactive;
      [|by apply IH in Hlook].
    pose proof (active_game_inv _ _ _ _ Hactive) as (_ & _ & Hlook0).
    destruct (IH _ _ Hlook0) as [HP0 Hplayed0].
    destruct (legality_test (board gs0) (candidate_move (board gs0) data))
      as [[|]|] eqn:Hlegal;
      [|by apply IH in Hlook|by apply IH in Hlook].
    apply legality_test_true in Hlegal.
    pose proof (Hplayer gs0 _ HP0 Hplayed0 Hlegal) as HP1.
    pose proof (played_push _ _ Hplayed0 Hlegal) as Hplayed1.
    destruct (is_game_over (push (board gs0) (candidate_move (board gs0) data)))
      eqn:Hover; cbn [negb fst] in Hlook;
      rewrite lookup_insert in Hlook; case_decide;
      try (by apply IH in Hlook); injection Hlook as <-.
    + split; [exact HP1|exact Hplayed1].
    + specialize (Hreply _ _ Hactive Hlegal Hover).
      split.
      * exact (Hengine _ _ HP1 Hplayed1 Hreply).
      * cbn [board]. by apply played_push.
  - unfold undo_move in Hlook.
    destruct (active_game games cookie) as [[g gs0]|] eqn:Hactive;
      [|by apply IH in Hlook].
    pose proof (active_game_inv _ _ _ _ Hactive) as (_ & _ & Hlook0).
    destruct (IH _ _ Hlook0) as [HP0 Hplayed0].
    destruct (2 <=? length (move_stack (board gs0)))%nat;
      [|by apply IH in Hlook].
    destruct (pop (board gs0)) as [[ai_move b1]|] eqn:Hp1;
      [|by apply IH in Hlook].
    destruct (played_pop _ _ _ Hplayed0 Hp1) as (Hplayed1 & _ & _).
    destruct (if is_capture (state b1) ai_move
              then pop_if_nonempty (black (captured_pieces gs0))
              else Some (black (captured_pieces gs0))) as [k|] eqn:Hk.
    2:{ destruct (is_capture (state b1) ai_move); [|discriminate].
        destruct (pop_if_nonempty_total (black (captured_pieces gs0)));
          congruence. }
    pose proof (Hpop1 _ _ _ _ HP0 Hplayed0 Hp1 Hk) as HP1.
    destruct (pop b1) as [[player_move b2]|] eqn:Hp2.
    2:{ cbn [fst] in Hlook. rewrite lookup_insert in Hlook. case_decide;
          [|by apply IH in Hlook].
        injection Hlook as <-. split; [exact HP1|exact Hplayed1]. }
    destruct (played_pop _ _ _ Hplayed1 Hp2) as (Hplayed2 & _ & _).
    destruct (if is_capture (state b2) player_move
              then pop_if_nonempty (white (captured_pieces gs0))
              else Some (white (captured_pieces gs0))) as [w|] eqn:Hw.
    2:{ destruct (is_capture (state b2) player_move); [|discriminate].
        destruct (pop_if_nonempty_total (white (captured_pieces gs0)));
          congruence. }
    cbn [fst] in Hlook. rewrite lookup_insert in Hlook. case_decide;
      [|by apply IH in Hlook].
    injection Hlook as <-. split; [|exact Hplayed2].
    exact (Hpop2 {| board := b1;
                    captured_pieces :=
                      {| white := white (captured_pieces gs0); black := k |}
                 |} _ _ _ HP1 Hplayed1 Hp2 Hw).
Qed.

Lemma reachable_played (games : gmap string (GameSession R))
    (game_id : string) (gs : GameSession R) :
  reachable R games -> games !! game_id = Some gs -> played (board gs).
Proof.
  intros Hr Hlook.
  by destruct (reachable_sessions_ind (fun _ => True) I
                 ltac:(auto) ltac:(auto) ltac:(auto) ltac:(auto)
                 games Hr game_id gs Hlook).
Qed.

Lemma played_replayed (b : Board position) : played b -> replayed b.
Proof.
  unfold replayed. induction 1 as [|b m Hp IH Hl]; [reflexivity|].
  rewrite move_stack_push, fold_left_app. cbn [fold_left]. by rewrite IH.
Qed.

Lemma played_stack_legal (b : Board position) :
  played b -> Forall (fun mp => fst mp ∈ legal_moves (snd mp)) (stack b).
Proof.
  induction 1 as [|b m Hp IH Hl]; [constructor|].
  cbn [push stack]. by constructor.
Qed.

Lemma replay_san_app (b : Board position) (l1 l2 : list Move) :
  replay_san b (l1 ++ l2)
  = replay_san b l1 ++ replay_san (fold_left push l1 b) l2.
Proof.
  revert b. induction l1 as [|m l1 IH]; intros b; [reflexivity|].
  cbn [app replay_san fold_left]. by rewrite IH.
Qed.

Lemma played_san (b : Board position) :
  played b -> replay_san new_board (move_stack b) = san_of_stack b.
Proof.
  induction 1 as [|b m Hp IH Hl]; [reflexivity|].
  rewrite move_stack_push, replay_san_app, IH.
  rewrite (played_replayed b Hp).
  unfold san_of_stack. cbn [push stack rev]. by rewrite map_app.
Qed.

End ReachableFacts.

(** X9: the move history of a snapshot is the game as it was played.  For a
    session of a reachable dictionary the history that [game_state_to_dict]
    recomputes on a temporary board holds, for every move of the stack, its
    notation in the position it was played in, oldest move first. *)
Theorem history_is_notation_of_played_moves (R : Rules)
    (games : gmap string (GameSession R))
    (game_id : string) (gs : GameSession R) :
  reachable R games ->
  games !! game_id = Some gs ->
  exists st,
    game_state_to_dict games game_id = Some st
    /\ gs_move_history st
       = map (fun mp => san (snd mp) (fst mp)) (rev (stack (board gs))).
Proof.
  intros Hr Hlook. unfold game_state_to_dict. rewrite Hlook.
  eexists. split; [reflexivity|]. cbn [gs_move_history].
  apply played_san. by apply (reachable_played _ _ _ Hr Hlook).
Qed.

Section SessionInvariants.
Context {R : Rules}.

Lemma pop_if_nonempty_length (l k : list string) :
  pop_if_nonempty l = Some k -> (length l <= S (length k))%nat.
Proof.
  destruct l as [|x l].
  - intros [= <-]. simpl. lia.
  - destruct (exists_last (l := x :: l)) as (l' & y & ->); [discriminate|].
    rewrite pop_if_nonempty_snoc. intros [= <-].
    rewrite length_app. simpl. lia.
Qed.

Lemma pop_if_nonempty_Forall (P : string -> Prop) (l k : list string) :
  pop_if_nonempty l = Some k -> Forall P l -> Forall P k.
Proof.
  destruct l as [|x l].
  - by intros [= <-].
  - destruct (exists_last (l := x :: l)) as (l' & y & ->); [discriminate|].
    rewrite pop_if_nonempty_snoc. intros [= <-] H.
    by apply Forall_app in H as [H _].
Qed.

Lemma symbol_is_piece_symbol (piece : Piece) : symbol piece ∈ piece_symbols.
Proof.
  destruct piece as [[] []]; unfold symbol, piece_symbols; cbn;
    repeat (first [left | right]).
Qed.

Lemma track_capture_Forall (b : Board position) (m : Move)
    (l : list string) :
  Forall (fun s => s ∈ piece_symbols) l ->
  Forall (fun s => s ∈ piece_symbols) (track_capture b m l).
Proof.
  intros H. unfold track_capture.
  destruct (is_capture (state b) m); [|exact H].
  destruct (captured_piece b m); [|exact H].
  apply Forall_app. split; [exact H|].
  constructor; [apply symbol_is_piece_symbol|constructor].
Qed.

Lemma played_turn (b : Board position) :
  turn_passes R -> played b ->
  turn (state b) = Nat.even (length (move_stack b)).
Proof.
  intros [Hstart Hpass]. induction 1 as [|b m Hp IH Hl]; [exact Hstart|].
  rewrite move_stack_push, length_app. cbn [push state length].
  rewrite Hpass by exact Hl. rewrite IH.
  rewrite Nat.add_1_r, Nat.even_succ. apply Nat.negb_even.
Qed.

Lemma length_replay_san (b : Board position) (l : list Move) :
  length (replay_san b l) = length l.
Proof.
  revert b. induction l as [|m l IH]; intros b; [reflexivity|].
  cbn [replay_san length]. by rewrite IH.
Qed.

End SessionInvariants.

(** X10: the capture lists never hold fewer symbols than there are capturing
    moves on the stack.  This holds for every session of a reachable
    dictionary when legal moves start on an occupied square; the two numbers
    are equal until an undo meets an empty list. *)
Theorem captures_never_undercounted (R : Rules)
    (games : gmap string (GameSession R))
    (game_id : string) (gs : GameSession R) :
  origin_occupied R ->
  reachable R games ->
  games !! game_id = Some gs ->
  (captures_on_stack (board gs) <= captured_total gs)%nat.
Proof.
  intros Hlaw Hr Hlook.
  refine (proj1 (reachable_sessions_ind
                   (fun s => (captures_on_stack (board s)
                              <= captured_total s)%nat)
                   _ _ _ _ _ games Hr game_id gs Hlook));
    unfold captured_total; cbn [board captured_pieces white black].
  - unfold captures_on_stack. simpl. lia.
  - intros s m HP _ Hl.
    rewrite captures_on_stack_push, track_capture_occupied by (by apply Hlaw).
    destruct (is_capture (state (board s)) m); rewrite ?length_app; simpl; lia.
  - intros s m HP _ Hl.
    rewrite captures_on_stack_push, track_capture_occupied by (by apply Hlaw).
    destruct (is_capture (state (board s)) m); rewrite ?length_app; simpl; lia.
  - intros s m b1 k HP Hp Hpop Hk.
    destruct (played_pop _ _ _ Hp Hpop) as (_ & _ & E).
    rewrite E, captures_on_stack_push in HP.
    destruct (is_capture (state b1) m).
    + apply pop_if_nonempty_length in Hk. lia.
    + injection Hk as <-. lia.
  - intros s m b1 w HP Hp Hpop Hw.
    destruct (played_pop _ _ _ Hp Hpop) as (_ & _ & E).
    rewrite E, captures_on_stack_push in HP.
    destruct (is_capture (state b1) m).
    + apply pop_if_nonempty_length in Hw. lia.
    + injection Hw as <-. lia.
Qed.

(** X11: the capture lists hold piece symbols only.  In a reachable
    dictionary every entry of the [white] and [black] lists of a session is
    one of the twelve symbols [P N B R Q K p n b r q k], the keys of the
    page's table of glyphs. *)
Theorem captured_lists_hold_piece_symbols (R : Rules)
    (games : gmap string (GameSession R))
    (game_id : string) (gs : GameSession R) :
  reachable R games ->
  games !! game_id = Some gs ->
  Forall (fun s => s ∈ piece_symbols) (white (captured_pieces gs))
  /\ Forall (fun s => s ∈ piece_symbols) (black (captured_pieces gs)).
Proof.
  intros Hr Hlook.
  refine (proj1 (reachable_sessions_ind
                   (fun s => Forall (fun x => x ∈ piece_symbols)
                               (white (captured_pieces s))
                             /\ Forall (fun x => x ∈ piece_symbols)
                                  (black (captured_pieces s)))
                   _ _ _ _ _ games Hr game_id gs Hlook));
    cbn [board captured_pieces white black].
  - split; constructor.
  - intros s m [Hw Hk] _ _. split; [by apply track_capture_Forall|exact Hk].
  - intros s m [Hw Hk] _ _. split; [exact Hw|by apply track_capture_Forall].
  - intros s m b1 k [Hw Hk] _ _ E. split; [exact Hw|].
    destruct (is_capture (state b1) m).
    + by apply (pop_if_nonempty_Forall _ _ _ E).
    + by injection E as <-.
  - intros s m b1 w [Hw Hk] _ _ E. split; [|exact Hk].
    destruct (is_capture (state b1) m).
    + by apply (pop_if_nonempty_Forall _ _ _ E).
    + by injection E as <-.
Qed.

(** X12: the side to move follows the number of moves.  When White starts
    and a legal move passes the turn, the snapshot of a session of a
    reachable dictionary says [white] exactly when the move stack, and with
    it the move history, has an even number of entries. *)
Theorem current_player_follows_parity (R : Rules)
    (games : gmap string (GameSession R))
    (game_id : string) (gs : GameSession R) :
  turn_passes R ->
  reachable R games ->
  games !! game_id = Some gs ->
  exists st,
    game_state_to_dict games game_id = Some st
    /\ length (gs_move_history st) = length (move_stack (board gs))
    /\ gs_current_player st
       = (if Nat.even (length (gs_move_history st))
          then "white" else "black").
Proof.
  intros Hturn Hr Hlook. unfold game_state_to_dict. rewrite Hlook.
  eexists. split; [reflexivity|].
  cbn [gs_move_history gs_current_player].
  rewrite length_replay_san. split; [reflexivity|].
  by rewrite (played_turn _ Hturn (reachable_played _ _ _ Hr Hlook)).
Qed.

(** ** The history and the buttons of the page *)

(** X13: the history of a snapshot changes at its end only.  An accepted or
    rejected [make_move] leaves the entries of the history in place and adds
    at most two; a successful [undo_move] removes the last two entries and
    leaves the others in place. *)
Theorem history_changes_at_its_end (R : Rules)
    (games : gmap string (GameSession R)) (cookie : option string)
    (data : MoveRequest) (engine_play : Board position -> Move)
    (game_id : string) (gs : GameSession R) :
  active_game games cookie = Some (game_id, gs) ->
  exists st,
    game_state_to_dict games game_id = Some st
    /\ (exists st' new,
          game_state_to_dict
            (fst (make_move games cookie data engine_play)) game_id = Some st'
          /\ gs_move_history st' = gs_move_history st ++ new
          /\ (length new <= 2)%nat)
    /\ (is_success (snd (undo_move games cookie)) = true ->
        exists st' x y,
          game_state_to_dict (fst (undo_move games cookie)) game_id = Some st'
          /\ gs_move_history st = gs_move_history st' ++ [x; y]).
Proof.
  intros Hactive.
  pose proof (active_game_inv _ _ _ _ Hactive) as (_ & _ & Hlook).
  unfold game_state_to_dict at 1. rewrite Hlook.
  eexists. split; [reflexivity|]. cbn [gs_move_history]. split.
  - unfold make_move. rewrite Hactive.
    destruct (legality_test _ _) as [[|]|].
    + destruct (is_game_over _); cbn [negb fst];
        unfold game_state_to_dict; rewrite lookup_insert_eq;
        eexists; eexists; (split; [reflexivity|]);
        cbn [gs_move_history board]; rewrite ?move_stack_push;
        rewrite ?replay_san_app; rewrite <- ?app_assoc;
        (split; [reflexivity|]);
        rewrite ?length_app, ?length_replay_san; simpl; lia.
    + cbn [fst]. unfold game_state_to_dict. rewrite Hlook.
      eexists. exists []. split; [reflexivity|].
      cbn [gs_move_history]. rewrite app_nil_r. split; [reflexivity|simpl; lia].
    + cbn [fst]. unfold game_state_to_dict. rewrite Hlook.
      eexists. exists []. split; [reflexivity|].
      cbn [gs_move_history]. rewrite app_nil_r. split; [reflexivity|simpl; lia].
  - intros Hok.
    destruct (Nat.lt_ge_cases (length (move_stack (board gs))) 2) as [Hlt|Hge].
    { unfold undo_move in Hok. rewrite Hactive in Hok.
      destruct (Nat.leb_spec 2 (length (move_stack (board gs)))); [lia|].
      discriminate. }
    destruct (undo_move_pops_two games cookie game_id gs Hactive Hge)
      as (ai_move & player_move & b1 & gs' & rest
          & _ & _ & Hst & Hst' & E & _).
    rewrite E. cbn [fst]. unfold game_state_to_dict.
    rewrite lookup_insert_eq.
    eexists. eexists. eexists. split; [reflexivity|].
    cbn [gs_move_history]. rewrite Hst, Hst', replay_san_app.
    reflexivity.
Qed.

(** After 1. e4 e5 the history of the new game has two entries more. *)
Lemma history_changes_at_its_end_witness :
  exists st,
    game_state_to_dict fresh_games "game" = Some st
    /\ exists st' new,
         game_state_to_dict
           (fst (make_move fresh_games client (request Sq.e2 Sq.e4)
                   (fun _ => plain_move Sq.e7 Sq.e5))) "game" = Some st'
         /\ gs_move_history st' = gs_move_history st ++ new
         /\ (length new <= 2)%nat.
Proof.
  destruct (history_changes_at_its_end chess_rules fresh_games client
              (request Sq.e2 Sq.e4) (fun _ => plain_move Sq.e7 Sq.e5)
              "game" (the_session fresh_games "game"))
    as (st & E & Hmove & _).
  - apply active_game_the_session; vm_compute; reflexivity.
  - exists st. split; assumption.
Defined.

(** X14: the page's Undo button agrees with the server.  For an existing
    session and its snapshot, the button is enabled on the player's turn
    exactly when [undo_move] succeeds, and it is disabled whenever it is not
    the player's turn. *)
Theorem undo_button_follows_server (R : Rules)
    (games : gmap string (GameSession R)) (cookie : option string)
    (game_id : string) (gs : GameSession R) :
  active_game games cookie = Some (game_id, gs) ->
  exists st,
    game_state_to_dict games game_id = Some st
    /\ undo_button_disabled st true
       = negb (is_success (snd (undo_move games cookie)))
    /\ undo_button_disabled st false = true.
Proof.
  intros Hactive.
  pose proof (active_game_inv _ _ _ _ Hactive) as (_ & _ & Hlook).
  unfold game_state_to_dict. rewrite Hlook.
  eexists. split; [reflexivity|].
  unfold undo_button_disabled. cbn [gs_move_history negb].
  rewrite length_replay_san, orb_false_r, orb_true_r. split; [|reflexivity].
  destruct (Nat.lt_ge_cases (length (move_stack (board gs))) 2) as [Hlt|Hge].
  - unfold undo_move. rewrite Hactive.
    destruct (Nat.leb_spec 2 (length (move_stack (board gs)))); [lia|].
    cbn [snd is_success negb]. by apply Nat.ltb_lt.
  - destruct (undo_move_pops_two games cookie game_id gs Hactive Hge)
      as (? & ? & ? & ? & ? & _ & _ & _ & _ & E & _).
    rewrite E. cbn [snd is_success negb]. apply Nat.ltb_ge. exact Hge.
Qed.

(** In a new game the button is disabled and the server refuses to undo. *)
Lemma undo_button_follows_server_witness :
  exists st,
    game_state_to_dict fresh_games "game" = Some st
    /\ undo_button_disabled st true
       = negb (is_success (snd (undo_move fresh_games client)))
    /\ undo_button_disabled st false = true.
Proof.
  apply (undo_button_follows_server chess_rules fresh_games client "game"
           (the_session fresh_games "game")).
  apply active_game_the_session; vm_compute; reflexivity.
Defined.

(** ** A new game and the next request *)

(** X15: the session [new_game] creates is the one the next requests see.
    With the identifier [new_game] puts in the cookie, which [uuid4] never
    makes empty, [get_game_state_route] answers with the snapshot [new_game]
    returned, the board of the session is a new board, and [undo_move]
    answers [Cannot undo]; this holds whatever the dictionary held before,
    also a session under the same identifier. *)
Theorem new_game_is_the_active_game (R : Rules)
    (games : gmap string (GameSession R)) (game_id : string) :
  game_id <> "" ->
  let games' := fst (fst (new_game games game_id)) in
  let cookie := snd (fst (new_game games game_id)) in
  active_game games' cookie
  = Some (game_id,
          {| board := new_board;
             captured_pieces := {| white := []; black := [] |} |})
  /\ snd (new_game games game_id)
     = NewGameResponse game_id (game_state_to_dict games' game_id)
  /\ get_game_state_route games' cookie
     = (games', GameStateResponse (game_state_to_dict games' game_id))
  /\ undo_move games' cookie = (games', ErrorResponse "Cannot undo").
Proof.
  intros Hne games' cookie.
  assert (active_game games' cookie
          = Some (game_id,
                  {| board := new_board;
                     captured_pieces := {| white := []; black := [] |} |}))
    as E.
  { unfold active_game, games', cookie, new_game. cbn [fst snd].
    destruct (decide (game_id = "")); [contradiction|].
    by rewrite lookup_insert_eq. }
  split; [exact E|]. split; [reflexivity|].
  unfold get_game_state_route, undo_move. rewrite E. split; reflexivity.
Qed.

Lemma new_game_is_the_active_game_witness :
  undo_move (fst (fst (new_game mate_undone "game")))
    (snd (fst (new_game mate_undone "game")))
  = (fst (fst (new_game mate_undone "game")), ErrorResponse "Cannot undo").
Proof.
  apply (new_game_is_the_active_game chess_rules mate_undone "game").
  discriminate.
Defined.

(** ** The end of the game in a snapshot *)

(** X16: [game_over] and [winner] agree.  The winner of a snapshot is
    [white], [black], [draw] or absent; and when the library's game is over
    by the five cases [get_winner] tests, with a decisive result for a
    checkmate, a snapshot says that the game is over exactly when it names a
    winner or a draw. *)
Theorem game_over_iff_winner (R : Rules)
    (games : gmap string (GameSession R))
    (game_id : string) (gs : GameSession R) :
  game_over_cases R ->
  checkmate_has_winner R ->
  games !! game_id = Some gs ->
  exists st,
    game_state_to_dict games game_id = Some st
    /\ (gs_game_over st = true <-> gs_winner st <> None)
    /\ (forall w, gs_winner st = Some w -> w ∈ ["white"; "black"; "draw"]).
Proof.
  intros Hcases Hmate Hlook. unfold game_state_to_dict. rewrite Hlook.
  eexists. split; [reflexivity|]. cbn [gs_game_over gs_winner].
  rewrite Hcases. unfold get_winner.
  destruct (is_checkmate (state (board gs))) eqn:Hcm.
  - destruct (Hmate _ Hcm) as [-> | ->]; cbn.
    + split; [split; [discriminate|reflexivity]|].
      intros w [= <-]. left.
    + split; [split; [discriminate|reflexivity]|].
      intros w [= <-]. right. left.
  - cbn [orb].
    destruct (is_insufficient_material (state (board gs))),
      (is_stalemate (state (board gs))),
      (is_seventyfive_moves (state (board gs))),
      (is_fivefold_repetition (board gs)); cbn;
      (split; [split; (discriminate || reflexivity || congruence)|]);
      intros w E; try discriminate; injection E as <-;
      right; right; left.
Qed.

(** The library's cases of the end of a game, for the rules of chess. *)
Lemma chess_game_over_cases : game_over_cases chess_rules.
Proof.
  intros b.
  change (Chess.is_game_over b
          = (Chess.is_checkmate (state b)
             || Chess.is_insufficient_material (state b)
             || Chess.is_stalemate (state b)
             || Chess.is_seventyfive_moves (state b)
             || Chess.is_fivefold_repetition b)).
  unfold Chess.is_game_over, Chess.is_checkmate, Chess.is_stalemate.
  generalize (Chess.is_fivefold_repetition b).
  destruct b as [p stk]. cbn [state]. intros fivefold.
  destruct (Chess.is_check p), (Chess.no_legal_moves p),
    (Chess.is_insufficient_material p), (Chess.is_seventyfive_moves p),
    fivefold; reflexivity.
Qed.

Lemma chess_checkmate_has_winner : checkmate_has_winner chess_rules.
Proof.
  intros b Hcm.
  change (Chess.is_checkmate (state b) = true) in Hcm.
  change (Chess.result b = "1-0" \/ Chess.result b = "0-1").
  unfold Chess.result. destruct b as [p stk]. cbn [state] in *.
  rewrite Hcm. destruct (Chess.turn p); auto.
Qed.

Lemma chess_turn_passes : turn_passes chess_rules.
Proof.
  split; [reflexivity|]. intros p m Hl.
  pose proof (chess_origin_occupied p m Hl) as Ho.
  change (Chess.piece_at p (from_square m) <> None) in Ho.
  change (Chess.turn (Chess.apply_move p m) = negb (Chess.turn p)).
  unfold Chess.apply_move.
  destruct (Chess.piece_at p (from_square m)); [reflexivity|contradiction].
Qed.

(** After scholar's mate the snapshot names a winner. *)
Lemma game_over_iff_winner_witness :
  exists st,
    game_state_to_dict (fst (run fresh_games client scholars_mate)) "game"
    = Some st
    /\ (gs_game_over st = true <-> gs_winner st <> None).
Proof.
  destruct (game_over_iff_winner chess_rules
              (fst (run fresh_games client scholars_mate)) "game"
              (the_session (fst (run fresh_games client scholars_mate))
                 "game"))
    as (st & E & Hiff & _).
  - exact chess_game_over_cases.
  - exact chess_checkmate_has_winner.
  - apply has_session_lookup. vm_compute. reflexivity.
  - exists st. split; assumption.
Defined.

(** ** Reachable dictionaries at work *)

Lemma fresh_games_reachable : reachable chess_rules fresh_games.
Proof. unfold fresh_games. apply reachable_new_game, reachable_start. Qed.

Lemma mate_undone_reachable : reachable chess_rules mate_undone.
Proof.
  unfold mate_undone.
  apply reachable_run; [apply fresh_games_reachable|].
  vm_compute. reflexivity.
Qed.

Lemma mate_undone_session :
  mate_undone !! "game" = Some (the_session mate_undone "game").
Proof. apply has_session_lookup. vm_compute. reflexivity. Qed.

Lemma history_is_notation_of_played_moves_witness :
  exists st,
    game_state_to_dict mate_undone "game" = Some st
    /\ gs_move_history st
       = map (fun mp => san (snd mp) (fst mp))
           (rev (stack (board (the_session mate_undone "game")))).
Proof.
  apply (history_is_notation_of_played_moves chess_rules mate_undone "game").
  - exact mate_undone_reachable.
  - exact mate_undone_session.
Defined.

Lemma captures_never_undercounted_witness :
  (captures_on_stack (board (the_session mate_undone "game"))
   <= captured_total (the_session mate_undone "game"))%nat.
Proof.
  apply (captures_never_undercounted chess_rules mate_undone "game").
  - exact chess_origin_occupied.
  - exact mate_undone_reachable.
  - exact mate_undone_session.
Defined.

Lemma captured_lists_hold_piece_symbols_witness :
  Forall (fun s => s ∈ piece_symbols)
    (white (captured_pieces (the_session mate_undone "game")))
  /\ Forall (fun s => s ∈ piece_symbols)
       (black (captured_pieces (the_session mate_undone "game"))).
Proof.
  apply (captured_lists_hold_piece_symbols chess_rules mate_undone "game").
  - exact mate_undone_reachable.
  - exact mate_undone_session.
Defined.

Lemma current_player_follows_parity_witness :
  exists st,
    game_state_to_dict mate_undone "game" = Some st
    /\ length (gs_move_history st)
       = length (move_stack (board (the_session mate_undone "game")))
    /\ gs_current_player st
       = (if Nat.even (length (gs_move_history st))
          then "white" else "black").
Proof.
  apply (current_player_follows_parity chess_rules mate_undone "game").
  - exact chess_turn_passes.
  - exact mate_undone_reachable.
  - exact mate_undone_session.
Defined.

(** ** The last move and the grid *)

(** X18: the grid and the squares of the requests agree.  The grid of a
    snapshot has eight rows of eight cells, and the cell of a row and a
    column shows the piece of the square that [make_move] and
    [get_valid_moves] take for the same row and column.  So, when legal
    moves start on an occupied square, a request that starts on an empty
    cell is answered with [Invalid move] and an empty cell has no valid
    moves. *)
Theorem grid_cell_is_request_square (R : Rules)
    (games : gmap string (GameSession R)) (cookie : option string)
    (engine_play : Board position -> Move)
    (game_id : string) (gs : GameSession R) (row col r c : Z) :
  origin_occupied R ->
  on_board_square row col ->
  active_game games cookie = Some (game_id, gs) ->
  exists st cells,
    game_state_to_dict games game_id = Some st
    /\ length (gs_board st) = 8%nat
    /\ Forall (fun cells => length cells = 8%nat) (gs_board st)
    /\ gs_board st !! Z.to_nat row = Some cells
    /\ cells !! Z.to_nat col
       = Some (symbol <$> piece_at (state (board gs))
                            (chess_square col (7 - row)))
    /\ (cells !! Z.to_nat col = Some None ->
        make_move games cookie
          {| from_row := row; from_col := col; to_row := r; to_col := c |}
          engine_play
        = (games, ErrorResponse "Invalid move")
        /\ get_valid_moves games cookie row col
           = (games, ValidMovesResponse [])).
Proof.
  intros Hlaw [Hrow Hcol] Hactive.
  pose proof (active_game_inv _ _ _ _ Hactive) as (_ & _ & Hlook).
  assert (Hcell :
    exists cells,
      board_to_2d_array (board gs) !! Z.to_nat row = Some cells
      /\ cells !! Z.to_nat col
         = Some (symbol <$> piece_at (state (board gs))
                              (chess_square col (7 - row)))).
  { assert (row = 0 \/ row = 1 \/ row = 2 \/ row = 3 \/ row = 4 \/ row = 5
            \/ row = 6 \/ row = 7) as Hr by lia.
    assert (col = 0 \/ col = 1 \/ col = 2 \/ col = 3 \/ col = 4 \/ col = 5
            \/ col = 6 \/ col = 7) as Hc by lia.
    unfold board_to_2d_array, range8. cbn [map].
    repeat (destruct Hr as [-> | Hr]); try subst row;
      (eexists; split; [reflexivity|]);
      repeat (destruct Hc as [-> | Hc]); try subst col;
      cbn; by destruct (piece_at _ _). }
  destruct Hcell as (cells & Hcells & Hcol').
  unfold game_state_to_dict. rewrite Hlook.
  eexists. exists cells. split; [reflexivity|]. cbn [gs_board].
  split; [reflexivity|].
  split; [unfold board_to_2d_array, range8; cbn [map]; by repeat constructor|].
  split; [exact Hcells|]. split; [exact Hcol'|].
  intros Hnone. rewrite Hcol' in Hnone.
  assert (piece_at (state (board gs)) (chess_square col (7 - row)) = None)
    as Hempty.
  { destruct (piece_at _ _); [discriminate|reflexivity]. }
  split.
  - unfold make_move. rewrite Hactive. cbv zeta.
    set (data := {| from_row := row; from_col := col;
                    to_row := r; to_col := c |}).
    destruct (candidate_move_squares (board gs) data) as [Hfrom _].
    cbn [from_row from_col] in Hfrom.
    assert (candidate_move (board gs) data ∉ legal_moves (state (board gs)))
      as Hillegal.
    { intros Hin. apply Hlaw in Hin. apply Hin. by rewrite Hfrom. }
    destruct (legality_test_illegal _ _ Hillegal) as [Hraise [E|E]];
      rewrite E; [reflexivity|].
    apply Hraise in E. rewrite Hfrom in E. destruct E as [E|[E _]].
    + rewrite on_board_square_in_table in E by (split; assumption).
      discriminate.
    + contradiction.
  - unfold get_valid_moves. rewrite Hactive. do 2 f_equal.
    assert (filter (fun move => from_square move = chess_square col (7 - row))
                   (legal_moves (state (board gs))) = []) as ->; [|done].
    apply elem_of_nil_inv. intros m Hin.
    apply list_elem_of_filter in Hin as [Hfrom Hin].
    apply Hlaw in Hin. rewrite Hfrom in Hin. contradiction.
Qed.

(** The cell of row 4 and column 4 of a new game is empty and no move
    starts there. *)
Lemma grid_cell_is_request_square_witness :
  make_move fresh_games client
    {| from_row := 4; from_col := 4; to_row := 3; to_col := 4 |}
    (fun _ => plain_move Sq.e7 Sq.e5)
  = (fresh_games, ErrorResponse "Invalid move").
Proof.
  destruct (grid_cell_is_request_square chess_rules fresh_games client
              (fun _ => plain_move Sq.e7 Sq.e5) "game"
              (the_session fresh_games "game") 4 4 3 4)
    as (st & cells & _ & _ & _ & _ & Hcell & Hreject).
  - exact chess_origin_occupied.
  - vm_compute. repeat split; discriminate.
  - apply active_game_the_session; vm_compute; reflexivity.
  - apply Hreject. rewrite Hcell.
    assert (piece_at (state (board (the_session fresh_games "game")))
              (chess_square 4 (7 - 4)) = None) as ->
      by (vm_compute; reflexivity).
    reflexivity.
Defined.

(** X19: when the page ignores clicks.  When White starts and a legal move
    passes the turn, the page ignores every click on the board of a
    reachable session whose history has an odd number of moves, even on the
    player's turn and with the game not over: the side to move is then
    Black. *)
Theorem clicks_ignored_on_odd_history (R : Rules)
    (games : gmap string (GameSession R))
    (game_id : string) (gs : GameSession R) :
  turn_passes R ->
  reachable R games ->
  games !! game_id = Some gs ->
  exists st,
    game_state_to_dict games game_id = Some st
    /\ click_ignored (Some st) true
       = (gs_game_over st || Nat.odd (length (gs_move_history st)))
    /\ click_ignored (Some st) false = true.
Proof.
  intros Hturn Hr Hlook. unfold game_state_to_dict. rewrite Hlook.
  eexists. split; [reflexivity|].
  unfold click_ignored.
  cbn [gs_game_over gs_current_player gs_move_history negb].
  rewrite length_replay_san.
  rewrite (played_turn _ Hturn (reachable_played _ _ _ Hr Hlook)).
  rewrite <- Nat.negb_even.
  split; [|by rewrite orb_true_r].
  rewrite orb_false_r.
  by destruct (Nat.even (length (move_stack (board gs)))).
Qed.

(** After scholar's mate and an undo the game is not over and the page
    ignores every click. *)
Lemma clicks_ignored_on_odd_history_witness :
  exists st,
    game_state_to_dict mate_undone "game" = Some st
    /\ gs_game_over st = false
    /\ click_ignored (Some st) true = true.
Proof.
  destruct (clicks_ignored_on_odd_history chess_rules mate_undone "game"
              (the_session mate_undone "game"))
    as (st & E & Hclick & _).
  - exact chess_turn_passes.
  - exact mate_undone_reachable.
  - exact mate_undone_session.
  - exists st. split; [exact E|].
    assert (gs_game_over <$> game_state_to_dict mate_undone "game"
            = Some false) as Hover by (vm_compute; reflexivity).
    assert (length <$> (gs_move_history
                          <$> game_state_to_dict mate_undone "game")
            = Some 5%nat) as Hlen by (vm_compute; reflexivity).
    rewrite E in Hover, Hlen. cbn in Hover, Hlen.
    injection Hover as Hover. injection Hlen as Hlen.
    split; [exact Hover|]. rewrite Hclick, Hover, Hlen. reflexivity.
Defined.

